(** * Octelys/organizer: the Scanner -> Analyzer -> Copier pipeline

    A shallow embedding of the Go sources of the magazine organizer
    (internal/ai, internal/analyzer, internal/copier and the entities they
    exchange) together with the properties of the design document that
    they satisfy or break.

    Conventions.
    - Go's [uint8]/[uint16] values are carried as [Z]; the JSON decoder is
      the only producer of such values and it enforces the range.
    - Go strings are byte strings: [string] of the standard library.
      Non-ASCII text (accents) is the UTF-8 byte sequence of the source.
    - The file system, the clock-free audit trail, the standard output and
      the inference backend are explicit: the file system and the traces
      are state, the backend is an oracle.
    - [time.Now()] timestamps are not part of the model. *)

From Stdlib Require Import ZArith List String Ascii Bool Lia DecimalString.
From Stdlib.Strings Require Import Byte.
From stdpp Require Import base option list strings gmap.

#[local] Set Warnings "-clear-no-such-hyp".

Local Open Scope string_scope.
Local Open Scope list_scope.
Local Open Scope Z_scope.

(** ** Strings, as the Go standard library handles them *)

Module GoString.

(** Texts that hold double quotes (prompts, JSON) are written with a
    stand-in character: [with_dquote mark s] is [s] with a double quote
    in the place of every [mark]. *)
Definition dquote : ascii := ascii_of_nat 34.

Fixpoint with_dquote (mark : ascii) (s : string) : string :=
  match s with
  | EmptyString => EmptyString
  | String c r =>
      String (if Ascii.eqb c mark then dquote else c) (with_dquote mark r)
  end.

(** [strings.Join]. *)
Definition Join (elems : list string) (sep : string) : string :=
  String.concat sep elems.

(** [strings.ToLower] on the ASCII range; bytes above 0x7F (the UTF-8
    encoding of non-ASCII runes) are kept as they are. *)
Definition lower_ascii (c : ascii) : ascii :=
  let n := nat_of_ascii c in
  if (65 <=? n)%nat && (n <=? 90)%nat then ascii_of_nat (n + 32) else c.

Fixpoint ToLower (s : string) : string :=
  match s with
  | EmptyString => EmptyString
  | String c r => String (lower_ascii c) (ToLower r)
  end.

Fixpoint repeat_char (c : ascii) (n : nat) : string :=
  match n with
  | O => EmptyString
  | S k => String c (repeat_char c k)
  end.

(** [%d] on an unsigned value. *)
Definition fmt_d (n : Z) : string :=
  NilZero.string_of_uint (N.to_uint (Z.to_N n)).

(** [%0<width>d] on an unsigned value: left-padded with zeros up to
    [width], never truncated. *)
Definition fmt_0d (width : nat) (n : Z) : string :=
  let digits := fmt_d n in
  repeat_char "0" (width - String.length digits) +:+ digits.

End GoString.

(** ** Paths: [path/filepath] on a slash-separated system *)

Module filepath.

Definition Separator : ascii := "/"%char.

Fixpoint split (s : string) : list string :=
  match s with
  | EmptyString => [EmptyString]
  | String c r =>
      if Ascii.eqb c Separator then EmptyString :: split r
      else match split r with
           | x :: xs => String c x :: xs
           | [] => [String c EmptyString]
           end
  end.

(** The walk of [Clean] over the elements of a path: empty elements and
    [.] disappear, [..] removes the element before it, and is kept only
    at the head of a path that is not rooted. [stack] is the output so
    far, last element first. *)
Fixpoint walk (rooted : bool) (stack : list string) (elems : list string)
  : list string :=
  match elems with
  | [] => rev stack
  | e :: es =>
      if String.eqb e "" || String.eqb e "." then walk rooted stack es
      else if String.eqb e ".." then
        match stack with
        | top :: below =>
            if String.eqb top ".." then walk rooted (e :: stack) es
            else walk rooted below es
        | [] => if rooted then walk rooted [] es else walk rooted [e] es
        end
      else walk rooted (e :: stack) es
  end.

Definition rooted (s : string) : bool :=
  match s with
  | String c _ => Ascii.eqb c Separator
  | EmptyString => false
  end.

Definition Clean (path : string) : string :=
  if String.eqb path "" then "."
  else
    let elems := walk (rooted path) [] (split path) in
    if rooted path then "/" +:+ String.concat "/" elems
    else match elems with
         | [] => "."
         | _ => String.concat "/" elems
         end.

(** [filepath.Join] of two elements. *)
Definition Join (a b : string) : string :=
  if String.eqb a "" then (if String.eqb b "" then "" else Clean b)
  else Clean (a +:+ "/" +:+ b).

(** [filepath.Ext]: the suffix from the last dot of the last element;
    [rev_path] is the path read backwards, [acc] what was read. *)
Fixpoint ext_from (rev_path : list ascii) (acc : list ascii) : string :=
  match rev_path with
  | [] => ""
  | c :: r =>
      if Ascii.eqb c Separator then ""
      else if Ascii.eqb c "." then string_of_list_ascii (c :: acc)
      else ext_from r (c :: acc)
  end.

Definition Ext (path : string) : string :=
  ext_from (rev (list_ascii_of_string path)) [].

(** Names that are single elements of a path, and rooted paths made of
    such names: on them [Clean] has nothing to change. *)
Fixpoint no_slash (s : string) : bool :=
  match s with
  | EmptyString => true
  | String c r => negb (Ascii.eqb c Separator) && no_slash r
  end.

Definition simple (name : string) : bool :=
  no_slash name && negb (String.eqb name "") && negb (String.eqb name ".")
  && negb (String.eqb name "..").

(** A name that does not start with a dot (and is not empty). *)
Definition plain_head (name : string) : bool :=
  match name with
  | String c _ => negb (Ascii.eqb c ".")
  | EmptyString => false
  end.

Definition plain_root (path : string) : Prop :=
  exists elems : list string,
    elems <> [] /\ Forall (fun e => simple e = true) elems
    /\ path = "/" +:+ String.concat "/" elems.

End filepath.

(** ** [encoding/base64] and [io.Copy] *)

(** An [io.Reader]: the chunks that successive [Read] calls deliver, then
    end of file, or the error that interrupts the reading. *)
Record Reader := { chunks : list (list Byte.byte); failure : option string }.

Definition whole_file (data : list byte) : Reader :=
  {| chunks := [data]; failure := None |}.

Module base64.

Definition encodeStd : list ascii :=
  list_ascii_of_string
    "ABCDEFGHIJKLMNOPQRSTUVWXYZabcdefghijklmnopqrstuvwxyz0123456789+/".

Definition padChar : ascii := "="%char.

Definition u (b : byte) : Z := Z.of_N (Byte.to_N b).

(** [enc.encode[v & 0x3F]]. *)
Definition code (v : Z) : ascii :=
  nth (Z.to_nat (Z.land v 63)) encodeStd padChar.

Definition quantum (b0 b1 b2 : byte) : string :=
  let val := Z.lor (Z.lor (Z.shiftl (u b0) 16) (Z.shiftl (u b1) 8)) (u b2) in
  String (code (Z.shiftr val 18)) (String (code (Z.shiftr val 12))
    (String (code (Z.shiftr val 6)) (String (code val) EmptyString))).

(** The whole 3-byte blocks of [p], encoded, and the bytes left over. *)
Fixpoint blocks (p : list byte) : string * list byte :=
  match p with
  | b0 :: b1 :: b2 :: r =>
      let (out, rest) := blocks r in (quantum b0 b1 b2 +:+ out, rest)
  | _ => (EmptyString, p)
  end.

(** The final, partial block with its padding ([Encoding.Encode], the
    part after the main loop). *)
Definition tail_block (rest : list byte) : string :=
  match rest with
  | [b0] =>
      let val := Z.shiftl (u b0) 16 in
      String (code (Z.shiftr val 18)) (String (code (Z.shiftr val 12))
        (String padChar (String padChar EmptyString)))
  | [b0; b1] =>
      let val := Z.lor (Z.shiftl (u b0) 16) (Z.shiftl (u b1) 8) in
      String (code (Z.shiftr val 18)) (String (code (Z.shiftr val 12))
        (String (code (Z.shiftr val 6)) (String padChar EmptyString)))
  | _ => EmptyString
  end.

(** [base64.StdEncoding.EncodeToString]. *)
Definition EncodeToString (src : list byte) : string :=
  let (out, rest) := blocks src in out +:+ tail_block rest.

(** The stream encoder of [base64.NewEncoder]: [buf] holds the bytes
    (fewer than three) that do not fill a block yet. *)
Record encoder := { buf : list byte }.

Definition NewEncoder : encoder := {| buf := [] |}.

(** [encoder.Write]: the buffered bytes are completed first, whole
    blocks are encoded and written, the fringe is kept for later. The
    result is the text written to the underlying writer. *)
Definition Write (e : encoder) (p : list byte) : string * encoder :=
  let (out, rest) := blocks (buf e ++ p) in (out, {| buf := rest |}).

(** [encoder.Close]: flushes the partial block. *)
Definition Close (e : encoder) : string := tail_block (buf e).

End base64.

Module io.

(** [io.Copy(encoder, reader)] into a [strings.Builder] holding
    [written]: every chunk read goes through [Write]; a read error ends
    the copy with that error. *)
Fixpoint copy_chunks (e : base64.encoder) (written : string)
    (cs : list (list byte)) : string * base64.encoder :=
  match cs with
  | [] => (written, e)
  | c :: cs' =>
      let (out, e') := base64.Write e c in
      copy_chunks e' (written +:+ out) cs'
  end.

Definition Copy (e : base64.encoder) (written : string) (r : Reader)
  : (string * base64.encoder) + string :=
  let res := copy_chunks e written (chunks r) in
  match failure r with
  | Some err => inr err
  | None => inl res
  end.

End io.

(** ** internal/ai: the inference client *)

Module AiProxy.

(** The external model: prompt and image URL to output text, or the
    error of the transport. *)
Definition Backend := string -> string -> string + string.

(** The content of [imageBase64StringBuilder] when the request is
    built (ai_proxy.go, lines 73-80). The encoder is not closed. *)
Definition image_url (reader : Reader) : string + string :=
  let builder := "data:image/jpeg;base64," in
  let encoder := base64.NewEncoder in
  match io.Copy encoder builder reader with
  | inr err => inr ("unable to encode the image: " +:+ err)
  | inl (builder', _) => inl builder'
  end.

(** [SendRequestWithImage]: the requests issued to the backend, as
    (prompt, image URL) pairs, and the result. *)
Definition SendRequestWithImage (backend : Backend)
    (assistantPrompt : string) (reader : Reader)
  : list (string * string) * (string + string) :=
  match image_url reader with
  | inr err => ([], inr err)
  | inl url =>
      ([(assistantPrompt, url)],
       match backend assistantPrompt url with
       | inr err => inr ("unable to process the prompt: " +:+ err)
       | inl outputText => inl outputText
       end)
  end.

End AiProxy.

(** ** [encoding/json]: reading a JSON text *)

Module json.

#[local] Set Warnings "-register-all".
Inductive value :=
| Null
| Bool (b : bool)
| Num (literal : string)
| Str (s : string)
| Arr (elems : list value)
| Obj (members : list (string * value)).

Definition code_of (c : ascii) : Z := Z.of_nat (nat_of_ascii c).
Definition char_of (n : Z) : ascii := ascii_of_nat (Z.to_nat n).

Definition is_space (c : ascii) : bool :=
  let n := code_of c in
  (n =? 32) || (n =? 9) || (n =? 13) || (n =? 10).

Definition is_digit (c : ascii) : bool :=
  let n := code_of c in (48 <=? n) && (n <=? 57).

Fixpoint skip_space (s : list ascii) : list ascii :=
  match s with
  | c :: r => if is_space c then skip_space r else s
  | [] => []
  end.

Fixpoint digits (s : list ascii) : list ascii * list ascii :=
  match s with
  | c :: r =>
      if is_digit c then let (ds, rest) := digits r in (c :: ds, rest)
      else ([], s)
  | [] => ([], [])
  end.

(** The number grammar: an optional minus sign; a zero, or digits that
    do not start with a zero; an optional fraction; an optional
    exponent. *)
Definition int_part (s : list ascii) : option (list ascii * list ascii) :=
  match s with
  | "0"%char :: r => Some (["0"%char], r)
  | c :: _ => if is_digit c then Some (digits s) else None
  | [] => None
  end.

Definition frac_part (s : list ascii) : option (list ascii * list ascii) :=
  match s with
  | "."%char :: r =>
      match digits r with
      | ([], _) => None
      | (ds, rest) => Some ("."%char :: ds, rest)
      end
  | _ => Some ([], s)
  end.

Definition exp_digits (mark : list ascii) (s : list ascii)
  : option (list ascii * list ascii) :=
  match digits s with
  | ([], _) => None
  | (ds, rest) => Some (mark ++ ds, rest)
  end.

Definition exp_part (s : list ascii) : option (list ascii * list ascii) :=
  match s with
  | e :: r =>
      if Ascii.eqb e "e" || Ascii.eqb e "E" then
        match r with
        | sg :: r' =>
            if Ascii.eqb sg "+" || Ascii.eqb sg "-"
            then exp_digits [e; sg] r' else exp_digits [e] r
        | [] => None
        end
      else Some ([], s)
  | [] => Some ([], s)
  end.

Definition number (s : list ascii) : option (value * list ascii) :=
  let (sign, s0) :=
    match s with
    | "-"%char :: r => (["-"%char], r)
    | _ => ([], s)
    end in
  match int_part s0 with
  | None => None
  | Some (i, s1) =>
      match frac_part s1 with
      | None => None
      | Some (f, s2) =>
          match exp_part s2 with
          | None => None
          | Some (e, s3) =>
              Some (Num (string_of_list_ascii (sign ++ i ++ f ++ e)), s3)
          end
      end
  end.

(** Escapes inside a string. *)
Definition hex_value (c : ascii) : option Z :=
  let n := code_of c in
  if (48 <=? n) && (n <=? 57) then Some (n - 48)
  else if (97 <=? n) && (n <=? 102) then Some (n - 87)
  else if (65 <=? n) && (n <=? 70) then Some (n - 55)
  else None.

Definition getu4 (h1 h2 h3 h4 : ascii) : option Z :=
  match hex_value h1, hex_value h2, hex_value h3, hex_value h4 with
  | Some a, Some b, Some c, Some d => Some (((a * 16 + b) * 16 + c) * 16 + d)
  | _, _, _, _ => None
  end.

(** [utf8.EncodeRune]. *)
Definition encode_rune (r : Z) : list ascii :=
  if r <? 128 then [char_of r]
  else if r <? 2048 then
    [char_of (Z.lor 192 (Z.shiftr r 6)); char_of (Z.lor 128 (Z.land r 63))]
  else if r <? 65536 then
    [char_of (Z.lor 224 (Z.shiftr r 12));
     char_of (Z.lor 128 (Z.land (Z.shiftr r 6) 63));
     char_of (Z.lor 128 (Z.land r 63))]
  else
    [char_of (Z.lor 240 (Z.shiftr r 18));
     char_of (Z.lor 128 (Z.land (Z.shiftr r 12) 63));
     char_of (Z.lor 128 (Z.land (Z.shiftr r 6) 63));
     char_of (Z.lor 128 (Z.land r 63))].

Definition replacement_char : Z := 65533.

Definition is_surrogate (r : Z) : bool := (55296 <=? r) && (r <? 57344).

(** [utf16.DecodeRune]. *)
Definition decode_pair (r1 r2 : Z) : Z :=
  if (55296 <=? r1) && (r1 <? 56320) && (56320 <=? r2) && (r2 <? 57344)
  then Z.lor (Z.shiftl (r1 - 55296) 10) (r2 - 56320) + 65536
  else replacement_char.

Definition simple_escape (c : ascii) : option ascii :=
  let n := code_of c in
  if (n =? 34) || (n =? 92) || (n =? 47) then Some c
  else if n =? 98 then Some (char_of 8)
  else if n =? 102 then Some (char_of 12)
  else if n =? 110 then Some (char_of 10)
  else if n =? 114 then Some (char_of 13)
  else if n =? 116 then Some (char_of 9)
  else None.

Definition prepend (cs : list ascii) (r : option (list ascii * list ascii))
  : option (list ascii * list ascii) :=
  match r with
  | Some (body, rest) => Some (cs ++ body, rest)
  | None => None
  end.

(** The text of a string after its opening quote, unquoted, and what
    follows the closing quote. Bytes above 0x7F are kept as they are. *)
Fixpoint string_body (s : list ascii) : option (list ascii * list ascii) :=
  match s with
  | [] => None
  | c :: r =>
      if Ascii.eqb c GoString.dquote then Some ([], r)
      else if code_of c <? 32 then None
      else if negb (Ascii.eqb c "\") then prepend [c] (string_body r)
      else
        match r with
        | [] => None
        | e :: r1 =>
            match simple_escape e with
            | Some ch => prepend [ch] (string_body r1)
            | None =>
                if negb (Ascii.eqb e "u") then None
                else
                  match r1 with
                  | h1 :: h2 :: h3 :: h4 :: r2 =>
                      match getu4 h1 h2 h3 h4 with
                      | None => None
                      | Some rr =>
                          if negb (is_surrogate rr)
                          then prepend (encode_rune rr) (string_body r2)
                          else
                            match r2 with
                            | b :: x :: k1 :: k2 :: k3 :: k4 :: r3 =>
                                let low :=
                                  if Ascii.eqb b "\" && Ascii.eqb x "u"
                                  then getu4 k1 k2 k3 k4 else None in
                                match low with
                                | Some rr1 =>
                                    if decode_pair rr rr1 =? replacement_char
                                    then prepend (encode_rune replacement_char)
                                           (string_body r2)
                                    else prepend
                                           (encode_rune (decode_pair rr rr1))
                                           (string_body r3)
                                | None =>
                                    prepend (encode_rune replacement_char)
                                      (string_body r2)
                                end
                            | _ =>
                                prepend (encode_rune replacement_char)
                                  (string_body r2)
                            end
                      end
                  | _ => None
                  end
            end
        end
  end.

Definition quoted (s : list ascii) : option (string * list ascii) :=
  match string_body s with
  | Some (body, rest) => Some (string_of_list_ascii body, rest)
  | None => None
  end.

Fixpoint parse_value (fuel : nat) (s : list ascii) {struct fuel}
  : option (value * list ascii) :=
  match fuel with
  | O => None
  | S fuel' =>
      match skip_space s with
      | "n"%char :: "u"%char :: "l"%char :: "l"%char :: r => Some (Null, r)
      | "t"%char :: "r"%char :: "u"%char :: "e"%char :: r =>
          Some (Bool true, r)
      | "f"%char :: "a"%char :: "l"%char :: "s"%char :: "e"%char :: r =>
          Some (Bool false, r)
      | "["%char :: r =>
          match skip_space r with
          | "]"%char :: r' => Some (Arr [], r')
          | _ => parse_elements fuel' r []
          end
      | "{"%char :: r =>
          match skip_space r with
          | "}"%char :: r' => Some (Obj [], r')
          | _ => parse_members fuel' r []
          end
      | c :: r =>
          if Ascii.eqb c GoString.dquote then
            match quoted r with
            | Some (str, rest) => Some (Str str, rest)
            | None => None
            end
          else number (c :: r)
      | [] => None
      end
  end
with parse_elements (fuel : nat) (s : list ascii) (acc : list value)
     {struct fuel} : option (value * list ascii) :=
  match fuel with
  | O => None
  | S fuel' =>
      match parse_value fuel' s with
      | None => None
      | Some (v, r) =>
          match skip_space r with
          | ","%char :: r' => parse_elements fuel' r' (v :: acc)
          | "]"%char :: r' => Some (Arr (rev (v :: acc)), r')
          | _ => None
          end
      end
  end
with parse_members (fuel : nat) (s : list ascii)
     (acc : list (string * value)) {struct fuel}
     : option (value * list ascii) :=
  match fuel with
  | O => None
  | S fuel' =>
      match skip_space s with
      | q :: r =>
          if negb (Ascii.eqb q GoString.dquote) then None
          else
            match quoted r with
            | None => None
            | Some (key, r1) =>
                match skip_space r1 with
                | ":"%char :: r2 =>
                    match parse_value fuel' r2 with
                    | None => None
                    | Some (v, r3) =>
                        match skip_space r3 with
                        | ","%char :: r4 =>
                            parse_members fuel' r4 ((key, v) :: acc)
                        | "}"%char :: r4 =>
                            Some (Obj (rev ((key, v) :: acc)), r4)
                        | _ => None
                        end
                    end
                | _ => None
                end
            end
      | [] => None
      end
  end.

(** A whole text: one value, then only white space. *)
Definition parse (text : string) : option value :=
  let s := list_ascii_of_string text in
  match parse_value (2 * List.length s + 2) s with
  | Some (v, rest) =>
      match skip_space rest with
      | [] => Some v
      | _ => None
      end
  | None => None
  end.

End json.

(** ** Entities

    Field names are those of the Go structures, with a prefix where two
    structures share one ([PageNumber], [PagesOf], [PagesFolder],
    [EntryTitle], [TableError], [GameTitle]). *)

(** Modelled from the spec: the declarations of [entities.MagazinePage],
    [entities.MagazinePages], [entities.MagazineMetadata],
    [entities.Magazine] and [entities.Audit] are not among the sources.
    The fields are the ones the analyzer and the copier read and write;
    their widths and JSON names are those of the [Page] and [Publication]
    structures of the single-file program the services were split from
    ([uint8] page and issue numbers and months, [uint16] year), which is
    what the calls [toNames(magazine.Metadata.Month)] and
    [p.Number == pageNumber] require. *)
Record MagazinePage := { File : string; PageNumber : Z }.

Record MagazinePages := { PagesFolder : string; PagesOf : list MagazinePage }.

Record MagazineMetadata :=
  { Title : string; Number : Z; Month : list Z; Year : Z }.

Record Magazine :=
  { Metadata : MagazineMetadata; Pages : list MagazinePage; Folder : string }.

Inductive Severity := Debug | Information | Error.

Record Audit := { AuditSeverity : Severity; Text : string }.

(** entities/table_content.go and entities/game.go. *)
Record TableContentEntry := { EntryTitle : string; PageNumbers : list Z }.

Record TableContent :=
  { TableError : string; Entries : list TableContentEntry }.

Record Game :=
  { GameTitle : string; Console : string; Score : Z; OutOf : Z }.

(** ** [json.Unmarshal] into the entities *)

Module Unmarshal.

(** The value after decoding and the first error met: a value of the
    wrong kind for a field is reported and skipped, the decoding goes
    on. The texts of the errors are abridged. *)
Definition result (A : Type) : Type := A * option string.

Definition first_error (e1 e2 : option string) : option string :=
  match e1 with
  | Some _ => e1
  | None => e2
  end.

Definition kind (v : json.value) : string :=
  match v with
  | json.Null => "null"
  | json.Bool _ => "bool"
  | json.Num literal => "number " +:+ literal
  | json.Str _ => "string"
  | json.Arr _ => "array"
  | json.Obj _ => "object"
  end.

Definition type_error (v : json.value) (goType : string) : string :=
  "json: cannot unmarshal " +:+ kind v +:+ " into Go value of type "
    +:+ goType.

Definition into_string (old : string) (v : json.value) : result string :=
  match v with
  | json.Str s => (s, None)
  | json.Null => (old, None)
  | _ => (old, Some (type_error v "string"))
  end.

(** [strconv.ParseUint(literal, 10, 64)]: digits only. *)
Fixpoint uint_of (acc : Z) (s : list ascii) : option Z :=
  match s with
  | [] => Some acc
  | c :: r =>
      if json.is_digit c then uint_of (acc * 10 + (json.code_of c - 48)) r
      else None
  end.

Definition ParseUint (literal : string) : option Z :=
  match list_ascii_of_string literal with
  | [] => None
  | s => uint_of 0 s
  end.

Definition ParseInt (literal : string) : option Z :=
  match list_ascii_of_string literal with
  | "-"%char :: (_ :: _) as s => option_map Z.opp (uint_of 0 s)
  | [] => None
  | s => uint_of 0 s
  end.

Definition into_uint (bits : Z) (goType : string) (old : Z)
    (v : json.value) : result Z :=
  match v with
  | json.Num literal =>
      match ParseUint literal with
      | Some n =>
          if n <? 2 ^ bits then (n, None)
          else (old, Some (type_error v goType))
      | None => (old, Some (type_error v goType))
      end
  | json.Null => (old, None)
  | _ => (old, Some (type_error v goType))
  end.

Definition into_int32 (old : Z) (v : json.value) : result Z :=
  match v with
  | json.Num literal =>
      match ParseInt literal with
      | Some n =>
          if (- 2 ^ 31 <=? n) && (n <? 2 ^ 31) then (n, None)
          else (old, Some (type_error v "int32"))
      | None => (old, Some (type_error v "int32"))
      end
  | json.Null => (old, None)
  | _ => (old, Some (type_error v "int32"))
  end.

(** An array into a slice: the slice is emptied and every element is
    decoded and appended, as the package documents it; [null] empties
    the slice. *)
Definition into_slice {A : Type} (zero : A)
    (into_elem : A -> json.value -> result A) (goType : string)
    (old : list A) (v : json.value) : result (list A) :=
  match v with
  | json.Arr elems =>
      fold_left
        (fun (acc : result (list A)) e =>
           let (x, err) := into_elem zero e in
           (fst acc ++ [x], first_error (snd acc) err))
        elems ([], None)
  | json.Null => ([], None)
  | _ => (old, Some (type_error v goType))
  end.

(** A quoted string into a [[]uint8], which is a [[]byte]: the string
    is read as standard base64; line breaks are skipped. *)
Fixpoint index_of (c : ascii) (alphabet : list ascii) (i : Z) : option Z :=
  match alphabet with
  | [] => None
  | a :: r => if Ascii.eqb a c then Some i else index_of c r (i + 1)
  end.

Definition sextet (c : ascii) : option Z := index_of c base64.encodeStd 0.

Definition is_pad (c : ascii) : bool := Ascii.eqb c base64.padChar.

Fixpoint decode_quanta (s : list ascii) : option (list Z) :=
  match s with
  | [] => Some []
  | a :: b :: c :: d :: r =>
      match sextet a, sextet b with
      | Some x, Some y =>
          let b0 := Z.lor (Z.shiftl x 2) (Z.shiftr y 4) in
          match r with
          | [] =>
              if is_pad c && is_pad d then Some [b0]
              else
                match sextet c with
                | None => None
                | Some z =>
                    let b1 :=
                      Z.lor (Z.land (Z.shiftl y 4) 255) (Z.shiftr z 2) in
                    if is_pad d then Some [b0; b1]
                    else
                      match sextet d with
                      | None => None
                      | Some w =>
                          Some [b0; b1; Z.lor (Z.land (Z.shiftl z 6) 255) w]
                      end
                end
          | _ =>
              match sextet c, sextet d, decode_quanta r with
              | Some z, Some w, Some bytes =>
                  Some (b0
                        :: Z.lor (Z.land (Z.shiftl y 4) 255) (Z.shiftr z 2)
                        :: Z.lor (Z.land (Z.shiftl z 6) 255) w :: bytes)
              | _, _, _ => None
              end
          end
      | _, _ => None
      end
  | _ => None
  end.

Definition DecodeString (s : string) : option (list Z) :=
  decode_quanta
    (List.filter (fun c => negb ((json.code_of c =? 10) || (json.code_of c =? 13)))
       (list_ascii_of_string s)).

Definition into_bytes (old : list Z) (v : json.value) : result (list Z) :=
  match v with
  | json.Str s =>
      match DecodeString s with
      | Some bytes => (bytes, None)
      | None => (old, Some "illegal base64 data")
      end
  | _ => into_slice 0 (into_uint 8 "uint8") "[]uint8" old v
  end.

(** An object into a structure: the members are taken in order; a key
    names a field when they are equal up to the case of the letters
    (ASCII); other keys are ignored; a field whose key is absent keeps
    its value. [null] leaves the structure as it is. *)
Definition names (key field : string) : bool :=
  String.eqb (GoString.ToLower key) (GoString.ToLower field).

Definition into_struct {A : Type}
    (set_field : string -> json.value -> A -> result A) (goType : string)
    (old : A) (v : json.value) : result A :=
  match v with
  | json.Obj members =>
      fold_left
        (fun (acc : result A) (m : string * json.value) =>
           let (x, err) := set_field (fst m) (snd m) (fst acc) in
           (x, first_error (snd acc) err))
        members (old, None)
  | json.Null => (old, None)
  | _ => (old, Some (type_error v goType))
  end.

Definition set_entry (key : string) (v : json.value)
    (e : TableContentEntry) : result TableContentEntry :=
  if names key "title" then
    let (x, err) := into_string (EntryTitle e) v in
    ({| EntryTitle := x; PageNumbers := PageNumbers e |}, err)
  else if names key "pageNumbers" then
    let (x, err) := into_bytes (PageNumbers e) v in
    ({| EntryTitle := EntryTitle e; PageNumbers := x |}, err)
  else (e, None).

Definition zero_entry : TableContentEntry :=
  {| EntryTitle := ""; PageNumbers := [] |}.

Definition set_table (key : string) (v : json.value) (t : TableContent)
  : result TableContent :=
  if names key "error" then
    let (x, err) := into_string (TableError t) v in
    ({| TableError := x; Entries := Entries t |}, err)
  else if names key "entries" then
    let (x, err) :=
      into_slice zero_entry
        (into_struct set_entry "entities.TableContentEntry")
        "[]entities.TableContentEntry" (Entries t) v in
    ({| TableError := TableError t; Entries := x |}, err)
  else (t, None).

Definition set_metadata (key : string) (v : json.value)
    (m : MagazineMetadata) : result MagazineMetadata :=
  if names key "title" then
    let (x, err) := into_string (Title m) v in
    ({| Title := x; Number := Number m; Month := Month m; Year := Year m |},
     err)
  else if names key "number" then
    let (x, err) := into_uint 8 "uint8" (Number m) v in
    ({| Title := Title m; Number := x; Month := Month m; Year := Year m |},
     err)
  else if names key "months" then
    let (x, err) := into_bytes (Month m) v in
    ({| Title := Title m; Number := Number m; Month := x; Year := Year m |},
     err)
  else if names key "year" then
    let (x, err) := into_uint 16 "uint16" (Year m) v in
    ({| Title := Title m; Number := Number m; Month := Month m; Year := x |},
     err)
  else (m, None).

Definition set_game (key : string) (v : json.value) (g : Game)
  : result Game :=
  if names key "title" then
    let (x, err) := into_string (GameTitle g) v in
    ({| GameTitle := x; Console := Console g; Score := Score g;
        OutOf := OutOf g |}, err)
  else if names key "console" then
    let (x, err) := into_string (Console g) v in
    ({| GameTitle := GameTitle g; Console := x; Score := Score g;
        OutOf := OutOf g |}, err)
  else if names key "score" then
    let (x, err) := into_int32 (Score g) v in
    ({| GameTitle := GameTitle g; Console := Console g; Score := x;
        OutOf := OutOf g |}, err)
  else if names key "outOf" then
    let (x, err) := into_int32 (OutOf g) v in
    ({| GameTitle := GameTitle g; Console := Console g; Score := Score g;
        OutOf := x |}, err)
  else (g, None).

(** [json.Unmarshal([]byte(text), &x)]: a text that is not JSON is
    refused before [x] is touched. *)
Definition Unmarshal {A : Type}
    (set_field : string -> json.value -> A -> result A) (goType : string)
    (text : string) (x : A) : result A :=
  match json.parse text with
  | None => (x, Some "invalid character in JSON input")
  | Some v => into_struct set_field goType x v
  end.

Definition TableContent_ := Unmarshal set_table "entities.TableContent".
Definition MagazineMetadata_ :=
  Unmarshal set_metadata "entities.MagazineMetadata".
Definition Game_ := Unmarshal set_game "entities.Game".

End Unmarshal.

(** ** The file system *)

Module os.

(** Regular files with their content, directories, and the two ways an
    operation on an existing path goes wrong: [locked] paths refuse to
    be opened, created or made; [unreadable] files open but fail when
    read. *)
Record FileSystem := {
  files : gmap string (list byte);
  dirs : gset string;
  locked : gset string;
  unreadable : gset string
}.

Definition exists_ (fs : FileSystem) (path : string) : bool :=
  bool_decide (is_Some (files fs !! path)) || bool_decide (path ∈ dirs fs).

(** [os.Stat]: the error, if any. *)
Definition Stat (fs : FileSystem) (path : string) : option string :=
  if exists_ fs path then None
  else Some ("stat " +:+ path +:+ ": no such file or directory").

(** [os.IsNotExist(err)] on the error of [Stat]. *)
Definition IsNotExist (err : option string) : bool :=
  match err with
  | Some _ => true
  | None => false
  end.

(** [os.Open]: the open file, named by its path, or the error. A
    directory opens too. *)
Definition Open (fs : FileSystem) (path : string) : string + string :=
  if bool_decide (path ∈ locked fs)
  then inr ("open " +:+ path +:+ ": permission denied")
  else if exists_ fs path then inl path
  else inr ("open " +:+ path +:+ ": no such file or directory").

(** What reading an open file delivers, at the time it is read. *)
Definition reader (fs : FileSystem) (file : string) : Reader :=
  match files fs !! file with
  | Some data =>
      if bool_decide (file ∈ unreadable fs)
      then {| chunks := []; failure := Some "input/output error" |}
      else whole_file data
  | None =>
      {| chunks := [];
         failure := Some ("read " +:+ file +:+ ": is a directory") |}
  end.

Definition with_files (fs : FileSystem) (f : gmap string (list byte))
  : FileSystem :=
  {| files := f; dirs := dirs fs; locked := locked fs;
     unreadable := unreadable fs |}.

(** [os.Mkdir]. *)
Definition Mkdir (fs : FileSystem) (path : string)
  : option string * FileSystem :=
  if bool_decide (path ∈ locked fs)
  then (Some ("mkdir " +:+ path +:+ ": permission denied"), fs)
  else if exists_ fs path
  then (Some ("mkdir " +:+ path +:+ ": file exists"), fs)
  else (None,
        {| files := files fs; dirs := {[ path ]} ∪ dirs fs;
           locked := locked fs; unreadable := unreadable fs |}).

(** [os.Create]: the file is created, or truncated when it exists. *)
Definition Create (fs : FileSystem) (path : string)
  : option string * FileSystem :=
  if bool_decide (path ∈ locked fs)
  then (Some ("open " +:+ path +:+ ": permission denied"), fs)
  else if bool_decide (path ∈ dirs fs)
  then (Some ("open " +:+ path +:+ ": is a directory"), fs)
  else (None, with_files fs (<[ path := [] ]> (files fs))).

(** [io.Copy(dst, src)] between files: what was read before the error,
    if any, is written. *)
Definition Copy (fs : FileSystem) (dst : string) (src : Reader)
  : option string * FileSystem :=
  (failure src, with_files fs (<[ dst := concat (chunks src) ]> (files fs))).

End os.

(** ** internal/analyzer *)

Module Analyzer.

Definition nl : string := String (ascii_of_nat 10) EmptyString.

Definition CoverPageAssistantPrompt : string :=
  GoString.with_dquote "^"
    "You are given a JPG file containing an image of a cover scanner of a French publication. Based on typical naming conventions and any context you can infer, return only the title, publication number and publication month and year in the JSON format `{ ^title^: string, ^months^: [number,], ^year^: number, ^number^: number }`. If you cannot determine it, answer exactly `Unknown`. Do not add any extra explanation.".

Definition TableOfContentAssistantPrompt : string :=
  GoString.with_dquote "^"
    "This page should be a Summary page of a french magazine. Give me each section name with the page numbers. Returns the structure in the following Json format: {^error^: string, ^entries^: [{^title^: string, ^pageNumbers^: [number]}]. Order the result by the Numbers from the lower number to the highest. Only keep the entries that have the words 'Test(s)', 'Sélection(s)' (case insensitive)".

Definition GameTestedAssistantPrompt : string :=
  GoString.with_dquote "^"
    "This page a test of a game. Found the name of the game and the console is on. If it is on the page, return the score given to the game. The result should be return in the following Json format: {^title^: string, ^console^: string, ^score^: number, ^outOf^: number}.".

(** What the service leaves behind: the audit trail, the requests sent
    to the backend, and the magazines sent on [magazinesChannel], each
    in the order of the events; [closed] is the state of the channel. *)
Record State := {
  audits : list Audit;
  requests : list (string * string);
  magazines : list Magazine;
  closed : bool
}.

Definition initial : State :=
  {| audits := []; requests := []; magazines := []; closed := false |}.

(** A call returns, or panics: a panic in the goroutine of the service
    ends the process. *)
Inductive outcome (A : Type) :=
| Returned (a : A)
| Panicked (msg : string).
Arguments Returned {A} a.
Arguments Panicked {A} msg.

Definition M (A : Type) : Type := State -> outcome A * State.

Definition ret {A : Type} (a : A) : M A := fun st => (Returned a, st).

Definition bind {A B : Type} (c : M A) (k : A -> M B) : M B :=
  fun st =>
    match c st with
    | (Returned a, st') => k a st'
    | (Panicked msg, st') => (Panicked msg, st')
    end.

Definition panic {A : Type} (msg : string) : M A :=
  fun st => (Panicked msg, st).

Declare Scope analyzer_scope.
Delimit Scope analyzer_scope with analyzer.
Notation "x <- c ;; k" := (bind c (fun x => k))
  (at level 100, c at next level, right associativity) : analyzer_scope.
Notation "c ;; k" := (bind c (fun _ => k))
  (at level 100, right associativity) : analyzer_scope.
Local Open Scope analyzer_scope.

(** Modelled from the spec: internal/audit is not among the sources.
    [a.auditService.Log(entities.Audit{...})] appends the event to the
    trail and never fails its caller. *)
Definition Log (severity : Severity) (text : string) : M unit :=
  fun st =>
    (Returned tt,
     {| audits := audits st ++ [{| AuditSeverity := severity; Text := text |}];
        requests := requests st; magazines := magazines st;
        closed := closed st |}).

(** [a.magazinesChannel <- magazine]: the magazine is handed to the
    copier. *)
Definition send (m : Magazine) : M unit :=
  fun st =>
    (Returned tt,
     {| audits := audits st; requests := requests st;
        magazines := magazines st ++ [m]; closed := closed st |}).

(** [close(a.magazinesChannel)]. *)
Definition close : M unit :=
  fun st =>
    (Returned tt,
     {| audits := audits st; requests := requests st;
        magazines := magazines st; closed := true |}).

(** A computation that sends nothing on the outbound channel. *)
Definition silent {A : Type} (c : M A) : Prop :=
  forall st, magazines (snd (c st)) = magazines st.

(** [st] after more audit events and more requests. *)
Definition with_trail (st : State) (events : list Audit)
    (sent : list (string * string)) : State :=
  {| audits := audits st ++ events; requests := requests st ++ sent;
     magazines := magazines st; closed := closed st |}.

(** [slices.IndexFunc]. *)
Fixpoint index_from {A : Type} (i : Z) (s : list A) (f : A -> bool) : Z :=
  match s with
  | [] => -1
  | x :: r => if f x then i else index_from (i + 1) r f
  end.

Definition IndexFunc {A : Type} (s : list A) (f : A -> bool) : Z :=
  index_from 0 s f.

(** [s[i]]: an index out of range panics. *)
Definition at_index {A : Type} (s : list A) (i : Z) : M A :=
  match (if (0 <=? i) then nth_error s (Z.to_nat i) else None) with
  | Some x => ret x
  | None =>
      panic ("runtime error: index out of range [" +:+
             (if i <? 0 then "-" +:+ GoString.fmt_d (- i) else GoString.fmt_d i)
             +:+ "]")
  end.

Definition zero_metadata : MagazineMetadata :=
  {| Title := ""; Number := 0; Month := []; Year := 0 |}.

Definition zero_table : TableContent := {| TableError := ""; Entries := [] |}.

Definition zero_game : Game :=
  {| GameTitle := ""; Console := ""; Score := 0; OutOf := 0 |}.

(** How the loop over the candidate pages ends: [break] on a table that
    is taken, the end of the pages, or a [return] out of the function. *)
Inductive scan_exit :=
| Accepted (tableContent : TableContent)
| Exhausted (tableContent : TableContent)
| Aborted.

Definition table_of (e : scan_exit) : option TableContent :=
  match e with
  | Accepted t | Exhausted t => Some t
  | Aborted => None
  end.

Section Service.

Variable fs : os.FileSystem.
Variable backend : AiProxy.Backend.

(** [a.aiProxy.SendRequestWithImage(prompt, reader)]. *)
Definition SendRequestWithImage (prompt : string) (reader : Reader)
  : M (string + string) :=
  fun st =>
    let (sent, res) := AiProxy.SendRequestWithImage backend prompt reader in
    (Returned res,
     {| audits := audits st; requests := requests st ++ sent;
        magazines := magazines st; closed := closed st |}).

(** analyzer.go, lines 84-164. *)
Definition analyzePages (magazinePages : MagazinePages) : M unit :=
  match PagesOf magazinePages with
  | [] => Log Information "No pages to analyze."
  | cover :: _ =>
      let coverFileName := File cover in
      Log Information
        ("Analyzing cover file '" +:+ coverFileName +:+ "'" +:+ nl) ;;
      let coverPath :=
        filepath.Join (PagesFolder magazinePages) coverFileName in
      match os.Stat fs coverPath with
      | Some err =>
          Log Error ("Cover file '" +:+ coverPath +:+
                     "' does not exist or is not accessible: " +:+ err)
      | None =>
          match os.Open fs coverPath with
          | inr err =>
              Log Error ("Cover file '" +:+ coverPath +:+
                         "' does not exist or is not accessible: " +:+ err)
          | inl file =>
              res <- SendRequestWithImage CoverPageAssistantPrompt
                       (os.reader fs file) ;;
              match res with
              | inr err =>
                  Log Error
                    ("An error occurred trying to analyze the cover file '"
                     +:+ coverPath +:+ "': " +:+ err)
              | inl response =>
                  if String.eqb response "" || String.eqb response "Unknown"
                  then
                    Log Error
                      ("Unable to retieve the metadata of the cover file '"
                       +:+ coverPath +:+ "'")
                  else
                    let (metadata, err) :=
                      Unmarshal.MagazineMetadata_ response zero_metadata in
                    match err with
                    | Some e =>
                        Log Error
                          ("Unable to decode the magazine metadata of cover file '"
                           +:+ coverPath +:+ "': " +:+ e) ;;
                        Log Debug ("Received: " +:+ response +:+ nl)
                    | None =>
                        Log Information
                          ("Analysis done: found publication title is '"
                           +:+ Title metadata +:+ "' and its number is '"
                           +:+ GoString.fmt_d (Number metadata) +:+ "'") ;;
                        send {| Metadata := metadata;
                                Pages := PagesOf magazinePages;
                                Folder := PagesFolder magazinePages |}
                    end
              end
          end
      end
  end.

(** The loop of lines 178-237 over [magazinePages.Pages[1:]];
    [tableContent] is the variable declared before the loop. *)
Fixpoint scanTableOfContent (folder : string) (pages : list MagazinePage)
    (tableContent : TableContent) : M scan_exit :=
  match pages with
  | [] => ret (Exhausted tableContent)
  | page :: pages' =>
      let pageFile := filepath.Join folder (File page) in
      match os.Stat fs pageFile with
      | Some err =>
          Log Error ("File '" +:+ pageFile +:+
                     "' does not exist or is not accessible: " +:+ err) ;;
          ret Aborted
      | None =>
          match os.Open fs pageFile with
          | inr err =>
              Log Error ("File '" +:+ pageFile +:+
                         "' does not exist or is not accessible: " +:+ err) ;;
              ret Aborted
          | inl file =>
              res <- SendRequestWithImage TableOfContentAssistantPrompt
                       (os.reader fs file) ;;
              match res with
              | inr err =>
                  Log Error
                    ("An error occurred trying to analyze the file '"
                     +:+ pageFile +:+ "': " +:+ err) ;;
                  ret Aborted
              | inl response =>
                  if String.eqb response "" then
                    Log Error
                      ("Unable to retieve the metadata of the file '"
                       +:+ pageFile +:+ "'") ;;
                    ret Aborted
                  else
                    let (tableContent', err) :=
                      Unmarshal.TableContent_ response tableContent in
                    match err with
                    | Some e =>
                        Log Error
                          ("Unable to decode the table of content of file '"
                           +:+ pageFile +:+ "': " +:+ e) ;;
                        Log Debug ("Received: " +:+ response +:+ nl) ;;
                        scanTableOfContent folder pages' tableContent'
                    | None =>
                        if negb (String.eqb (TableError tableContent') "")
                           || (Z.of_nat (List.length (Entries tableContent'))
                               =? 0)
                        then scanTableOfContent folder pages' tableContent'
                        else ret (Accepted tableContent')
                    end
              end
          end
      end
  end.

(** The inner loop of lines 242-302 over [entry.PageNumbers]; [None]
    is a [return] out of the function. *)
Fixpoint scanPageNumbers (magazinePages : MagazinePages)
    (pageNumbers : list Z) (gamesTested : list Game)
  : M (option (list Game)) :=
  match pageNumbers with
  | [] => ret (Some gamesTested)
  | pageNumber :: pageNumbers' =>
      let idx :=
        IndexFunc (PagesOf magazinePages)
          (fun p => PageNumber p =? pageNumber) in
      page <- at_index (PagesOf magazinePages) idx ;;
      let pageFile :=
        filepath.Join (PagesFolder magazinePages) (File page) in
      match os.Stat fs pageFile with
      | Some err =>
          Log Error ("File '" +:+ pageFile +:+
                     "' does not exist or is not accessible: " +:+ err) ;;
          ret None
      | None =>
          match os.Open fs pageFile with
          | inr err =>
              Log Error ("File '" +:+ pageFile +:+
                         "' does not exist or is not accessible: " +:+ err) ;;
              ret None
          | inl file =>
              res <- SendRequestWithImage GameTestedAssistantPrompt
                       (os.reader fs file) ;;
              match res with
              | inr err =>
                  Log Error
                    ("An error occurred trying to analyze the file '"
                     +:+ pageFile +:+ "': " +:+ err) ;;
                  ret None
              | inl response =>
                  if String.eqb response "" then
                    Log Error
                      ("Unable to retrieve the game tested from the file '"
                       +:+ pageFile +:+ "'") ;;
                    ret None
                  else
                    let (gameTested, err) :=
                      Unmarshal.Game_ response zero_game in
                    match err with
                    | Some e =>
                        Log Error
                          ("Unable to decode the table of content of file '"
                           +:+ pageFile +:+ "': " +:+ e) ;;
                        Log Debug ("Received: " +:+ response +:+ nl) ;;
                        scanPageNumbers magazinePages pageNumbers'
                          gamesTested
                    | None =>
                        scanPageNumbers magazinePages pageNumbers'
                          (gamesTested ++ [gameTested])
                    end
              end
          end
      end
  end.

(** The outer loop of lines 241-303 over [tableContent.Entries]. *)
Fixpoint scanEntries (magazinePages : MagazinePages)
    (entries : list TableContentEntry) (gamesTested : list Game)
  : M (option (list Game)) :=
  match entries with
  | [] => ret (Some gamesTested)
  | entry :: entries' =>
      r <- scanPageNumbers magazinePages (PageNumbers entry) gamesTested ;;
      match r with
      | None => ret None
      | Some gamesTested' => scanEntries magazinePages entries' gamesTested'
      end
  end.

(** analyzer.go, lines 166-304. The games found are dropped when the
    function returns. *)
Definition analyzeTableOfContent (magazinePages : MagazinePages) : M unit :=
  match PagesOf magazinePages with
  | [] => Log Information "No pages to analyze."
  | _ :: candidates =>
      e <- scanTableOfContent (PagesFolder magazinePages) candidates
             zero_table ;;
      match table_of e with
      | None => ret tt
      | Some tableContent =>
          scanEntries magazinePages (Entries tableContent) [] ;;
          ret tt
      end
  end.

(** analyzer.go, lines 70-82: [inbound] is what the scanner sends
    before it closes its channel. *)
Fixpoint receive (inbound : list MagazinePages) : M unit :=
  match inbound with
  | [] => ret tt
  | magazinePages :: inbound' =>
      analyzePages magazinePages ;;
      analyzeTableOfContent magazinePages ;;
      receive inbound'
  end.

Definition monitor (inbound : list MagazinePages) : M unit :=
  receive inbound ;;
  close ;;
  Log Information "Analyzer service stopped.".

End Service.

End Analyzer.

(** ** internal/copier *)

Module Copier.

Definition Prefix : string := "test-".

Definition nl : string := String (ascii_of_nat 10) EmptyString.

(** The file system the copier writes to and what it prints, one entry
    for each call of [fmt.Printf] or [fmt.Println]. *)
Record State := { fs : os.FileSystem; stdout : list string }.

Definition print (text : string) (st : State) : State :=
  {| fs := fs st; stdout := stdout st ++ [text] |}.

Definition on_fs (f : os.FileSystem) (st : State) : State :=
  {| fs := f; stdout := stdout st |}.

Definition months : list string :=
  [ "Janvier"; "Février"; "Mars"; "Avril"; "Mai"; "Juin";
    "Juillet"; "Août"; "Septembre"; "Octobre"; "Novembre"; "Décembre" ].

(** [months[i]]; the one use is guarded by [n >= 1 && n <= 12]. *)
Definition month_at (i : Z) : string := nth (Z.to_nat i) months "".

(** copier.go, [toNames]. *)
Definition toNames (nums : list Z) : list string :=
  fold_left
    (fun names n =>
       if (1 <=? n) && (n <=? 12) then names ++ [month_at (n - 1)]
       else names)
    nums [].

(** [if _, err := os.Stat(p); os.IsNotExist(err) { err := os.Mkdir(p) }]:
    the error of [Mkdir], if it was called and failed. *)
Definition mkdir_if_absent (path : string) (st : State)
  : option string * State :=
  if os.IsNotExist (os.Stat (fs st) path) then
    let (err, fs') := os.Mkdir (fs st) path in (err, on_fs fs' st)
  else (None, st).

Section Service.

Variable workingDirectory : string.

Definition publicationFolder (metadata : MagazineMetadata) : string :=
  filepath.Join workingDirectory (Prefix +:+ Title metadata).

Definition publicationFolderNumber (metadata : MagazineMetadata) : string :=
  let knownMonths := toNames (Month metadata) in
  let publicationMonths := GoString.Join knownMonths " - " in
  let publicationDate :=
    publicationMonths +:+ " " +:+ GoString.fmt_d (Year metadata) in
  filepath.Join (publicationFolder metadata)
    ("Numéro " +:+ GoString.fmt_0d 2 (Number metadata) +:+ " | "
     +:+ publicationDate).

(** The body of the loop over [magazine.Pages], lines 579-603. *)
Definition copyPage (newPublicationFolderNumber folder : string)
    (magazinePage : MagazinePage) (st : State) : option string * State :=
  let srcPath := filepath.Join folder (File magazinePage) in
  let pageFileName :=
    GoString.fmt_0d 3 (PageNumber magazinePage)
    +:+ GoString.ToLower (filepath.Ext (File magazinePage)) in
  let dstPath := filepath.Join newPublicationFolderNumber pageFileName in
  match os.Open (fs st) srcPath with
  | inr err =>
      (Some ("unable to open source file " +:+ srcPath +:+ ": " +:+ err),
       st)
  | inl src =>
      match os.Create (fs st) dstPath with
      | (Some err, fs1) =>
          (Some ("unable to create destination file " +:+ dstPath +:+ ": "
                 +:+ err +:+ nl), on_fs fs1 st)
      | (None, fs1) =>
          match os.Copy fs1 dstPath (os.reader fs1 src) with
          | (Some err, fs2) =>
              (Some ("unable to copy the file from " +:+ srcPath +:+ " to "
                     +:+ dstPath +:+ ": " +:+ err +:+ nl), on_fs fs2 st)
          | (None, fs2) =>
              (None,
               print ("File " +:+ dstPath +:+ " copied" +:+ nl)
                 (on_fs fs2 st))
          end
      end
  end.

Fixpoint copyPages (newPublicationFolderNumber folder : string)
    (pages : list MagazinePage) (st : State) : option string * State :=
  match pages with
  | [] => (None, st)
  | magazinePage :: pages' =>
      match copyPage newPublicationFolderNumber folder magazinePage st with
      | (Some err, st') => (Some err, st')
      | (None, st') => copyPages newPublicationFolderNumber folder pages' st'
      end
  end.

(** copier.go, lines 550-607. *)
Definition renameFiles (magazine : Magazine) (st : State)
  : option string * State :=
  let metadata := Metadata magazine in
  let st0 :=
    print ("Publication " +:+ Title metadata +:+ " #"
           +:+ GoString.fmt_d (Number metadata) +:+ nl) st in
  let newPublicationFolder := publicationFolder metadata in
  match mkdir_if_absent newPublicationFolder st0 with
  | (Some err, st1) =>
      (Some ("unable to create folder " +:+ newPublicationFolder +:+ ": "
             +:+ err), st1)
  | (None, st1) =>
      let newPublicationFolderNumber := publicationFolderNumber metadata in
      match mkdir_if_absent newPublicationFolderNumber st1 with
      | (Some err, st2) =>
          (Some ("unable to create folder " +:+ newPublicationFolderNumber
                 +:+ ": " +:+ err), st2)
      | (None, st2) =>
          copyPages newPublicationFolderNumber (Folder magazine)
            (Pages magazine) st2
      end
  end.

(** copier.go, lines 531-548: [inbound] is what the channel of the
    analyzer still holds. The result is the error returned, if any,
    and the magazines that were not received. *)
Fixpoint monitor (inbound : list Magazine) (st : State)
  : (option string * list Magazine) * State :=
  match inbound with
  | [] => ((None, []), print ("Copier service stopped." +:+ nl) st)
  | magazine :: inbound' =>
      match renameFiles magazine st with
      | (Some err, st') =>
          ((Some err, inbound'),
           print ("Unable to transfer " +:+ Title (Metadata magazine)
                  +:+ " %!s(uint8="
                  +:+ GoString.fmt_d (Number (Metadata magazine)) +:+ "): "
                  +:+ err +:+ nl) st')
      | (None, st') =>
          monitor inbound'
            (print ("Magazine " +:+ Title (Metadata magazine) +:+ " "
                    +:+ GoString.fmt_d (Number (Metadata magazine))
                    +:+ " transferred" +:+ nl) st')
      end
  end.

End Service.

End Copier.

(** ** The content index, as the design document describes it *)

Module Design.

(** "A non-empty, error-free ContentIndex". *)
Definition usable (t : TableContent) : bool :=
  String.eqb (TableError t) "" && negb (Nat.eqb (List.length (Entries t)) 0).

(** "Iterate pages after the cover, in order, until a page yields a
    non-empty, error-free ContentIndex or all pages are exhausted";
    "decoding failure is non-fatal: log and continue to the next
    candidate page". [answers] are the answers of the backend for the
    candidate pages, in the order of the pages; [t] is the content
    index before the first of them. *)
Fixpoint first_usable (answers : list string) (t : TableContent)
  : Analyzer.scan_exit :=
  match answers with
  | [] => Analyzer.Exhausted t
  | answer :: answers' =>
      match Unmarshal.TableContent_ answer t with
      | (t', Some _) => first_usable answers' t'
      | (t', None) =>
          if usable t' then Analyzer.Accepted t' else first_usable answers' t'
      end
  end.

(** The number of candidate pages looked at. *)
Fixpoint consulted (answers : list string) (t : TableContent) : nat :=
  match answers with
  | [] => 0
  | answer :: answers' =>
      match Unmarshal.TableContent_ answer t with
      | (t', Some _) => S (consulted answers' t')
      | (t', None) => if usable t' then 1 else S (consulted answers' t')
      end
  end.

(** The audit events of the decoding failures. *)
Fixpoint decoding_audits (folder : string) (pages : list MagazinePage)
    (answers : list string) (t : TableContent) : list Audit :=
  match pages, answers with
  | page :: pages', answer :: answers' =>
      match Unmarshal.TableContent_ answer t with
      | (t', Some e) =>
          {| AuditSeverity := Error;
             Text := "Unable to decode the table of content of file '"
                     +:+ filepath.Join folder (File page) +:+ "': " +:+ e |}
          :: {| AuditSeverity := Debug;
                Text := "Received: " +:+ answer +:+ Analyzer.nl |}
          :: decoding_audits folder pages' answers' t'
      | (t', None) =>
          if usable t' then []
          else decoding_audits folder pages' answers' t'
      end
  | _, _ => []
  end.

(** The request that carries a candidate page. *)
Definition request_for (fs : os.FileSystem) (folder : string)
    (page : MagazinePage) : string * string :=
  (Analyzer.TableOfContentAssistantPrompt,
   match AiProxy.image_url
           (os.reader fs (filepath.Join folder (File page))) with
   | inl url => url
   | inr _ => ""
   end).

(** A candidate page that can be read and for which the backend gives
    an answer that is not empty. *)
Definition answered (fs : os.FileSystem) (backend : AiProxy.Backend)
    (folder : string) (page : MagazinePage) (answer : string) : Prop :=
  let pageFile := filepath.Join folder (File page) in
  os.Stat fs pageFile = None
  /\ os.Open fs pageFile = inl pageFile
  /\ AiProxy.SendRequestWithImage backend
       Analyzer.TableOfContentAssistantPrompt (os.reader fs pageFile)
     = ([request_for fs folder page], inl answer)
  /\ answer <> "".

(** An answer of the shape the prompt asks for: an object with a text
    under [error] and a list under [entries]. *)
Definition sets_error (m : string * json.value) : bool :=
  Unmarshal.names (fst m) "error"
  && match snd m with json.Str _ => true | _ => false end.

Definition sets_entries (m : string * json.value) : bool :=
  Unmarshal.names (fst m) "entries"
  && match snd m with json.Arr _ | json.Null => true | _ => false end.

Definition complete (answer : string) : bool :=
  match json.parse answer with
  | Some (json.Obj members) =>
      existsb sets_error members && existsb sets_entries members
  | _ => false
  end.

(** Two content indexes that have the same error, the same entries, or
    both. *)
Definition agree (be bn : bool) (t1 t2 : TableContent) : Prop :=
  (be = true -> TableError t1 = TableError t2)
  /\ (bn = true -> Entries t1 = Entries t2).

(** The iteration when every answer is decoded on its own. *)
Fixpoint first_usable_alone (answers : list string) (t : TableContent)
  : Analyzer.scan_exit :=
  match answers with
  | [] => Analyzer.Exhausted t
  | answer :: answers' =>
      match Unmarshal.TableContent_ answer Analyzer.zero_table with
      | (t', Some _) => first_usable_alone answers' t'
      | (t', None) =>
          if usable t' then Analyzer.Accepted t'
          else first_usable_alone answers' t'
      end
  end.

(** The layout the copier produces: the folder of an issue under the
    root, the destination of a page in it, and the line printed when the
    page is copied. *)
Definition issue_folder (root : string) (metadata : MagazineMetadata)
  : string :=
  filepath.Join
    (filepath.Join root ("test-" +:+ Title metadata))
    ("Numéro " +:+ GoString.fmt_0d 2 (Number metadata) +:+ " | "
     +:+ GoString.Join (Copier.toNames (Month metadata)) " - "
     +:+ " " +:+ GoString.fmt_d (Year metadata)).

Definition destination (folder : string) (page : MagazinePage) : string :=
  filepath.Join folder
    (GoString.fmt_0d 3 (PageNumber page)
     +:+ GoString.ToLower (filepath.Ext (File page))).

Definition copied_line (folder : string) (page : MagazinePage) : string :=
  "File " +:+ destination folder page +:+ " copied" +:+ Copier.nl.

End Design.

(** ** Scenarios *)

Module Scenario.

Definition bytes (s : string) : list byte :=
  map byte_of_ascii (list_ascii_of_string s).

Definition json_text : string -> string := GoString.with_dquote "'".

(** The source folder [A1] of three scanned pages, and an empty output
    root. *)
Definition disk : os.FileSystem :=
  {| os.files :=
       list_to_map
         [ ("/in/A1/p1.jpg", bytes "cover!");
           ("/in/A1/p2.jpg", bytes "page-2");
           ("/in/A1/p3.jpg", bytes "page-3") ];
     os.dirs := {[ "/in"; "/in/A1"; "/out" ]};
     os.locked := ∅;
     os.unreadable := ∅ |}.

Definition A1 : MagazinePages :=
  {| PagesFolder := "/in/A1";
     PagesOf :=
       [ {| File := "p1.jpg"; PageNumber := 1 |};
         {| File := "p2.jpg"; PageNumber := 2 |};
         {| File := "p3.jpg"; PageNumber := 3 |} ] |}.

Definition tilt : Magazine :=
  {| Metadata := {| Title := "Tilt"; Number := 42; Month := [6]; Year := 1991 |};
     Pages := PagesOf A1;
     Folder := PagesFolder A1 |}.

Definition start : Copier.State := {| Copier.fs := disk; Copier.stdout := [] |}.

(** A publication whose second page is not on the disk. *)
Definition p1 : MagazinePage := {| File := "p1.jpg"; PageNumber := 1 |}.
Definition lost : MagazinePage := {| File := "lost.JPG"; PageNumber := 2 |}.
Definition p3 : MagazinePage := {| File := "p3.jpg"; PageNumber := 3 |}.

Definition joystick : MagazineMetadata :=
  {| Title := "Joystick"; Number := 7; Month := [1; 12]; Year := 1990 |}.

Definition torn : Magazine :=
  {| Metadata := joystick; Pages := [p1; lost; p3]; Folder := "/in/A1" |}.

(** A backend that answers by the page it is shown, except for the
    question about a game. *)
Definition url (data : string) : string :=
  "data:image/jpeg;base64," +:+ base64.EncodeToString (bytes data).

Definition game_answer : string :=
  json_text "{'title':'Sonic','console':'Mega Drive','score':18,'outOf':20}".

Definition by_page (cover second third : string) : AiProxy.Backend :=
  fun prompt image =>
    if String.eqb prompt Analyzer.GameTestedAssistantPrompt
    then inl game_answer
    else if String.eqb image (url "cover!") then inl cover
    else if String.eqb image (url "page-2") then inl second
    else if String.eqb image (url "page-3") then inl third
    else inr "no answer".

Definition tilt_answer : string :=
  json_text "{'title':'Tilt','months':[6],'year':1991,'number':42}".

Definition tests_on (n : string) : string :=
  json_text "{'error':'','entries':[{'title':'Tests','pageNumbers':["
  +:+ n +:+ "]}]}".

Definition p2 : MagazinePage := {| File := "p2.jpg"; PageNumber := 2 |}.

Definition no_summary : string :=
  json_text "{'error':'no summary found','entries':[]}".

Definition lost_error : string :=
  "unable to open source file /in/A1/lost.JPG: open /in/A1/lost.JPG: no such file or directory".

End Scenario.

(** ** The rest of the sources *)

(** The single-file program the services were split from keeps its own
    copy of the month table (part "go-rename", [monthNumbersToNames]). *)
Module Legacy.

Definition months : list string :=
  [ "Janvier"; "Février"; "Mars"; "Avril"; "Mai"; "Juin";
    "Juillet"; "Août"; "Septembre"; "Octobre"; "Novembre"; "Décembre" ].

Definition monthNumbersToNames (nums : list Z) : list string :=
  fold_left
    (fun names n =>
       if (1 <=? n) && (n <=? 12)
       then names ++ [nth (Z.to_nat (n - 1)) months ""]
       else names)
    nums [].

End Legacy.

(** ai_proxy.go, [SendRequest]: the request without an image. The
    backend is the text model: prompt to output text, or the error of
    the transport. *)
Module AiText.

Definition SendRequest (backend : string -> string + string)
    (assistantPrompt : string) : string + string :=
  match backend assistantPrompt with
  | inr err => inr ("unable to process the prompt: " +:+ err)
  | inl outputText => inl outputText
  end.

End AiText.

(** Vocabulary for what the services keep. *)
Module Keeps.

(** A computation of the analyzer that only adds to the audit trail, to
    the requests and to the magazines sent, and leaves the channel open
    or closed as it was. *)
Definition appending {A : Type} (c : Analyzer.M A) : Prop :=
  forall st, exists events sent ms,
    snd (c st)
    = {| Analyzer.audits := Analyzer.audits st ++ events;
         Analyzer.requests := Analyzer.requests st ++ sent;
         Analyzer.magazines := Analyzer.magazines st ++ ms;
         Analyzer.closed := Analyzer.closed st |}.

(** A computation of the analyzer that returns, whatever the state. *)
Definition returning {A : Type} (c : Analyzer.M A) : Prop :=
  forall st, exists a, fst (c st) = Analyzer.Returned a.

(** A computation of the analyzer that panics with [msg] if it panics
    at all. *)
Definition panics_with {A : Type} (msg : string) (c : Analyzer.M A) : Prop :=
  forall st,
    match fst (c st) with
    | Analyzer.Returned _ => True
    | Analyzer.Panicked m => m = msg
    end.

(** [b] is [a] after files were created or rewritten: the same
    directories and permissions, and no file lost. *)
Definition grown (a b : os.FileSystem) : Prop :=
  os.dirs a = os.dirs b /\ os.locked a = os.locked b
  /\ os.unreadable a = os.unreadable b
  /\ dom (os.files a) ⊆ dom (os.files b).

(** Nothing was removed between [a] and [b]. *)
Definition kept (a b : os.FileSystem) : Prop :=
  os.dirs a ⊆ os.dirs b /\ dom (os.files a) ⊆ dom (os.files b)
  /\ os.locked a = os.locked b /\ os.unreadable a = os.unreadable b.

(** The source of a page and the name of its copy (copier.go, lines 579
    and 581). *)
Definition source (folder : string) (page : MagazinePage) : string :=
  filepath.Join folder (File page).

Definition pageFileName (page : MagazinePage) : string :=
  GoString.fmt_0d 3 (PageNumber page)
  +:+ GoString.ToLower (filepath.Ext (File page)).

(** A page number that fits the [uint8] of the page structure. *)
Definition uint8 (n : Z) : Prop := 0 <= n <= 255.

(** Every page number an entry refers to is carried by a page. *)
Definition resolvable (pages : list MagazinePage)
    (entries : list TableContentEntry) : bool :=
  forallb
    (fun entry =>
       forallb
         (fun n => existsb (fun p => PageNumber p =? n) pages)
         (PageNumbers entry))
    entries.

End Keeps.

(** * Properties *)

(** ** Month names (copier) *)

Lemma toNames_from (nums : list Z) (names : list string) :
  fold_left
    (fun names n =>
       if (1 <=? n) && (n <=? 12) then names ++ [Copier.month_at (n - 1)]
       else names)
    nums names
  = names ++ map (fun n => Copier.month_at (n - 1))
               (List.filter (fun n => (1 <=? n) && (n <=? 12)) nums).
Proof.
  revert names. induction nums as [|n nums IH]; intros names; simpl.
  - now rewrite app_nil_r.
  - rewrite IH. destruct ((1 <=? n) && (n <=? 12)); simpl.
    + now rewrite <- app_assoc.
    + reflexivity.
Qed.

(** C7. [toNames] keeps, in the order of the input, the month numbers
    between 1 and 12 and maps each to its name in the French calendar of
    twelve names; every other number is dropped without an error. Joined
    with " - ": 6 gives Juin, 1 and 12 give Janvier - Décembre, 0 and 13
    give no name at all. *)
Theorem toNames_french_calendar :
  map (fun n => Copier.month_at (n - 1)) [1; 2; 3; 4; 5; 6; 7; 8; 9; 10; 11; 12]
  = [ "Janvier"; "Février"; "Mars"; "Avril"; "Mai"; "Juin";
      "Juillet"; "Août"; "Septembre"; "Octobre"; "Novembre"; "Décembre" ]
  /\ (forall nums : list Z,
        Copier.toNames nums
        = map (fun n => Copier.month_at (n - 1))
            (List.filter (fun n => (1 <=? n) && (n <=? 12)) nums))
  /\ GoString.Join (Copier.toNames [6]) " - " = "Juin"
  /\ GoString.Join (Copier.toNames [1; 12]) " - " = "Janvier - Décembre"
  /\ Copier.toNames [0; 13] = [].
Proof.
  split; [reflexivity|]. split; [|repeat split].
  intros nums. unfold Copier.toNames. now rewrite toNames_from.
Qed.

(** ** The image sent to the backend (internal/ai) *)

Lemma append_assoc (s1 s2 s3 : string) :
  (s1 +:+ s2) +:+ s3 = s1 +:+ (s2 +:+ s3).
Proof.
  induction s1 as [|c s1 IH]; [reflexivity|].
  change (String c ((s1 +:+ s2) +:+ s3) = String c (s1 +:+ (s2 +:+ s3))).
  now rewrite IH.
Qed.

Lemma append_nil_r (s : string) : s +:+ "" = s.
Proof.
  induction s as [|c s IH]; [reflexivity|].
  change (String c (s +:+ "") = String c s). now rewrite IH.
Qed.

Lemma blocks_short (l : list byte) :
  (List.length l < 3)%nat -> base64.blocks l = (EmptyString, l).
Proof.
  destruct l as [|b0 [|b1 [|b2 r]]]; simpl; intros; try reflexivity; lia.
Qed.

Lemma blocks_cons3 (b0 b1 b2 : byte) (r : list byte) :
  base64.blocks (b0 :: b1 :: b2 :: r)
  = (base64.quantum b0 b1 b2 +:+ fst (base64.blocks r),
     snd (base64.blocks r)).
Proof. simpl. now destruct (base64.blocks r). Qed.

Lemma blocks_app_bounded (n : nat) :
  forall l1 l2 : list byte, (List.length l1 <= n)%nat ->
    base64.blocks (l1 ++ l2)
    = (fst (base64.blocks l1)
         +:+ fst (base64.blocks (snd (base64.blocks l1) ++ l2)),
       snd (base64.blocks (snd (base64.blocks l1) ++ l2))).
Proof.
  induction n as [|n IH]; intros l1 l2 Hl.
  - destruct l1; [|simpl in Hl; lia]. simpl.
    now destruct (base64.blocks l2).
  - destruct (Nat.lt_ge_cases (List.length l1) 3) as [Hs|Hs].
    + rewrite (blocks_short l1 Hs). cbn [fst snd String.append].
      now destruct (base64.blocks (l1 ++ l2)).
    + destruct l1 as [|b0 [|b1 [|b2 r]]]; try (simpl in Hs; lia).
      change ((b0 :: b1 :: b2 :: r) ++ l2) with (b0 :: b1 :: b2 :: (r ++ l2)).
      rewrite !blocks_cons3. cbn [fst snd].
      rewrite (IH r l2) by (simpl in Hl; lia). cbn [fst snd].
      now rewrite append_assoc.
Qed.

Lemma blocks_app (l1 l2 : list byte) :
  base64.blocks (l1 ++ l2)
  = (fst (base64.blocks l1)
       +:+ fst (base64.blocks (snd (base64.blocks l1) ++ l2)),
     snd (base64.blocks (snd (base64.blocks l1) ++ l2))).
Proof. now apply (blocks_app_bounded (List.length l1)). Qed.

Lemma blocks_rest_short (l : list byte) :
  (List.length (snd (base64.blocks l)) < 3)%nat.
Proof.
  assert (H : forall n (l0 : list byte), (List.length l0 <= n)%nat ->
            (List.length (snd (base64.blocks l0)) < 3)%nat).
  { induction n as [|n IH]; intros l0 Hl.
    - destruct l0; simpl in *; lia.
    - destruct (Nat.lt_ge_cases (List.length l0) 3) as [Hs|Hs].
      + now rewrite (blocks_short l0 Hs).
      + destruct l0 as [|b0 [|b1 [|b2 r]]]; try (simpl in Hs; lia).
        rewrite blocks_cons3. cbn [snd]. apply IH. simpl in Hl. lia. }
  now apply (H (List.length l)).
Qed.

(** The stream encoder writes the whole blocks of what it has received
    so far, however the input is cut into chunks. *)
Lemma copy_chunks_blocks (cs : list (list byte)) (e : base64.encoder)
    (written : string) :
  (List.length (base64.buf e) < 3)%nat ->
  io.copy_chunks e written cs
  = (written +:+ fst (base64.blocks (base64.buf e ++ concat cs)),
     {| base64.buf := snd (base64.blocks (base64.buf e ++ concat cs)) |}).
Proof.
  revert e written. induction cs as [|c cs IH]; intros e written He.
  - simpl. rewrite app_nil_r, (blocks_short (base64.buf e) He).
    cbn [fst snd]. rewrite append_nil_r. now destruct e.
  - cbn [io.copy_chunks concat]. unfold base64.Write.
    destruct (base64.blocks (base64.buf e ++ c)) as [out rest] eqn:Hb.
    rewrite IH; cbn [base64.buf].
    + rewrite (app_assoc (base64.buf e) c (concat cs)).
      rewrite (blocks_app (base64.buf e ++ c) (concat cs)), Hb.
      cbn [fst snd]. now rewrite append_assoc.
    + pose proof (blocks_rest_short (base64.buf e ++ c)) as Hr.
      now rewrite Hb in Hr.
Qed.

(** What [SendRequestWithImage] puts in the request: the whole 3-byte
    blocks of the image only, since the encoder is never closed. *)
Lemma image_url_blocks (cs : list (list byte)) :
  AiProxy.image_url {| chunks := cs; failure := None |}
  = inl ("data:image/jpeg;base64," +:+ fst (base64.blocks (concat cs))).
Proof.
  unfold AiProxy.image_url, io.Copy. cbn [chunks failure].
  rewrite copy_chunks_blocks by (simpl; lia). reflexivity.
Qed.

Lemma blocks_rest_nil (l : list byte) :
  snd (base64.blocks l) = [] <-> (List.length l mod 3 = 0)%nat.
Proof.
  assert (H : forall n (l0 : list byte), (List.length l0 <= n)%nat ->
            (snd (base64.blocks l0) = [] <-> (List.length l0 mod 3 = 0)%nat)).
  { induction n as [|n IH]; intros l0 Hl.
    - destruct l0; simpl in *; [tauto | lia].
    - destruct l0 as [|b0 [|b1 [|b2 r]]]; try (simpl; split; [discriminate|];
        intros Hm; vm_compute in Hm; discriminate).
      + simpl. tauto.
      + rewrite blocks_cons3. cbn [snd]. rewrite IH by (simpl in Hl; lia).
        change (List.length (b0 :: b1 :: b2 :: r)) with (3 + List.length r)%nat.
        rewrite <- (Nat.Div0.add_mod_idemp_l 3 (List.length r) 3).
        reflexivity. }
  now apply (H (List.length l)).
Qed.

Lemma tail_block_empty (rest : list byte) :
  (List.length rest < 3)%nat -> base64.tail_block rest = "" -> rest = [].
Proof.
  destruct rest as [|b0 [|b1 [|b2 r]]]; simpl; intros Hl H;
    try reflexivity; try discriminate; lia.
Qed.

(** X22. The request carries the base64 text of the image exactly when
    the length of the image is a multiple of three. *)
Lemma image_url_complete_iff (data : list byte) :
  AiProxy.image_url (whole_file data)
  = inl ("data:image/jpeg;base64," +:+ base64.EncodeToString data)
  <-> (List.length data mod 3 = 0)%nat.
Proof.
  unfold whole_file. rewrite image_url_blocks. cbn [concat].
  rewrite app_nil_r, <- blocks_rest_nil. unfold base64.EncodeToString.
  destruct (base64.blocks data) as [out rest] eqn:Hb. cbn [fst snd].
  pose proof (blocks_rest_short data) as Hr. rewrite Hb in Hr. cbn [snd] in Hr.
  split.
  - intros H. injection H as H. apply String.app_inj in H.
    apply tail_block_empty; [exact Hr|].
    rewrite <- (append_nil_r out) in H at 1.
    apply String.app_inj in H. congruence.
  - intros ->. cbn [base64.tail_block]. now rewrite append_nil_r.
Qed.

Local Open Scope byte_scope.

(** C8. The image of a request is the fixed prefix
    [data:image/jpeg;base64,] followed by the base64 text of the whole
    3-byte blocks of the input, whatever the chunks it is read in; the
    bytes of a last, partial block are left in the encoder, which is not
    closed. For the one-byte image [M] the request carries the bare
    prefix, where the base64 text of the input is [TQ==]. *)
Theorem image_url_unclosed_encoder :
  (forall cs : list (list byte),
      AiProxy.image_url {| chunks := cs; failure := None |}
      = inl ("data:image/jpeg;base64," +:+ fst (base64.blocks (concat cs))))
  /\ AiProxy.image_url (whole_file ["M"]) = inl "data:image/jpeg;base64,"%string
  /\ base64.EncodeToString ["M"] = "TQ=="%string
  /\ AiProxy.image_url (whole_file ["M"])
     <> inl ("data:image/jpeg;base64," +:+ base64.EncodeToString ["M"]).
Proof.
  split; [exact image_url_blocks|]. repeat split. discriminate.
Qed.

Local Close Scope byte_scope.



(** ** The copier *)

Section CopierFacts.

Variable workingDirectory : string.

Lemma mkdir_if_absent_keeps (path : string) (st st' : Copier.State)
    (r : option string) :
  Copier.mkdir_if_absent path st = (r, st') ->
  os.files (Copier.fs st') = os.files (Copier.fs st)
  /\ Copier.stdout st' = Copier.stdout st.
Proof.
  unfold Copier.mkdir_if_absent, os.Mkdir.
  destruct (os.IsNotExist _); [|intros [= <- <-]; now split].
  destruct (bool_decide _); [intros [= <- <-]; now split|].
  destruct (os.exists_ _ _); intros [= <- <-]; now split.
Qed.

Lemma copyPage_done (folder source : string) (page : MagazinePage)
    (st st' : Copier.State) :
  Copier.copyPage folder source page st = (None, st') ->
  dom (os.files (Copier.fs st'))
  = dom (os.files (Copier.fs st)) ∪ {[ Design.destination folder page ]}
  /\ Copier.stdout st' = Copier.stdout st ++ [Design.copied_line folder page].
Proof.
  unfold Copier.copyPage. fold (Design.destination folder page).
  destruct (os.Open _ _) as [src|err]; [|discriminate].
  unfold os.Create.
  destruct (bool_decide _); [discriminate|].
  destruct (bool_decide _); [discriminate|].
  unfold os.Copy. destruct (failure _); [discriminate|].
  intros [= <-]. cbn. split; [|reflexivity].
  rewrite !dom_insert_L. set_solver.
Qed.

Lemma copyPages_done (folder source : string) (pages : list MagazinePage) :
  forall st st' : Copier.State,
    Copier.copyPages folder source pages st = (None, st') ->
    dom (os.files (Copier.fs st'))
    = dom (os.files (Copier.fs st))
        ∪ list_to_set (map (Design.destination folder) pages)
    /\ Copier.stdout st'
       = Copier.stdout st ++ map (Design.copied_line folder) pages.
Proof.
  induction pages as [|page pages IH]; intros st st'; cbn.
  - intros [= <-]. split; [set_solver | now rewrite app_nil_r].
  - destruct (Copier.copyPage folder source page st) as [[err|] st1] eqn:Hp;
      [discriminate|].
    intros H. apply IH in H as [Hd Ho]. apply copyPage_done in Hp as [Hd1 Ho1].
    split.
    + rewrite Hd, Hd1. set_solver.
    + rewrite Ho, Ho1. now rewrite <- app_assoc.
Qed.

Lemma copyPages_app (folder source : string) (pre post : list MagazinePage) :
  forall st : Copier.State,
    Copier.copyPages folder source (pre ++ post) st
    = match Copier.copyPages folder source pre st with
      | (None, st1) => Copier.copyPages folder source post st1
      | (Some err, st1) => (Some err, st1)
      end.
Proof.
  induction pre as [|page pre IH]; intros st; cbn; [reflexivity|].
  destruct (Copier.copyPage folder source page st) as [[err|] st1];
    [reflexivity | apply IH].
Qed.

Lemma publicationFolderNumber_spelled (metadata : MagazineMetadata) :
  Copier.publicationFolderNumber workingDirectory metadata
  = Design.issue_folder workingDirectory metadata.
Proof. reflexivity. Qed.


(** C1, as amended. When the pages before [page] have been copied and
    opening the source of [page], creating its destination or copying
    its bytes fails, [renameFiles] returns that error at once: the
    state is the one the failure left, whatever pages follow. The loop
    of [monitor] then prints the error and returns it: the publications
    still in the channel are not received. *)
Theorem monitor_returns_first_error (magazine : Magazine)
    (pre post : list MagazinePage) (page : MagazinePage)
    (inbound : list Magazine) (st st1 st2 : Copier.State) (err : string) :
  Pages magazine = pre ++ page :: post ->
  Copier.renameFiles workingDirectory
    {| Metadata := Metadata magazine; Pages := pre;
       Folder := Folder magazine |} st = (None, st1) ->
  Copier.copyPage
    (Copier.publicationFolderNumber workingDirectory (Metadata magazine))
    (Folder magazine) page st1 = (Some err, st2) ->
  Copier.renameFiles workingDirectory magazine st = (Some err, st2)
  /\ Copier.monitor workingDirectory (magazine :: inbound) st
     = ((Some err, inbound),
        Copier.print
          ("Unable to transfer " +:+ Title (Metadata magazine)
           +:+ " %!s(uint8="
           +:+ GoString.fmt_d (Number (Metadata magazine)) +:+ "): "
           +:+ err +:+ Copier.nl) st2).
Proof.
  intros Hpages Hpre Hpage.
  assert (H : Copier.renameFiles workingDirectory magazine st
              = (Some err, st2)).
  { revert Hpre. unfold Copier.renameFiles. cbn [Metadata Pages Folder].
    destruct (Copier.mkdir_if_absent _ _) as [[e1|] s1]; [discriminate|].
    destruct (Copier.mkdir_if_absent _ s1) as [[e2|] s2]; [discriminate|].
    intros Hpre. rewrite Hpages, copyPages_app, Hpre. cbn.
    now rewrite Hpage. }
  split; [exact H|]. cbn [Copier.monitor]. now rewrite H.
Qed.

End CopierFacts.



(** With a publication that fails followed by one that would succeed,
    the loop ends on the first: the second stays in the channel and none
    of its pages reaches the output. *)
Lemma copier_leaves_next_publication :
  fst (Copier.monitor "/out" [Scenario.torn; Scenario.tilt] Scenario.start)
  = (Some Scenario.lost_error, [Scenario.tilt])
  /\ fst (Copier.renameFiles "/out" Scenario.tilt Scenario.start) = None
  /\ dom (os.files
            (Copier.fs
               (snd (Copier.monitor "/out" [Scenario.torn; Scenario.tilt]
                       Scenario.start))))
     = dom (os.files Scenario.disk)
         ∪ {[ "/out/test-Joystick/Numéro 07 | Janvier - Décembre 1990/001.jpg" ]}.
Proof. vm_compute. repeat split. Qed.

Lemma monitor_returns_first_error_witness :
  Copier.renameFiles "/out" Scenario.torn Scenario.start
  = (Some Scenario.lost_error,
     snd (Copier.renameFiles "/out"
            {| Metadata := Scenario.joystick; Pages := [Scenario.p1];
               Folder := "/in/A1" |} Scenario.start))
  /\ fst (Copier.monitor "/out" [Scenario.torn; Scenario.tilt] Scenario.start)
     = (Some Scenario.lost_error, [Scenario.tilt]).
Proof.
  destruct (monitor_returns_first_error "/out" Scenario.torn
              [Scenario.p1] [Scenario.p3] Scenario.lost [Scenario.tilt]
              Scenario.start
              (snd (Copier.renameFiles "/out"
                      {| Metadata := Scenario.joystick; Pages := [Scenario.p1];
                         Folder := "/in/A1" |} Scenario.start))
              (snd (Copier.renameFiles "/out"
                      {| Metadata := Scenario.joystick; Pages := [Scenario.p1];
                         Folder := "/in/A1" |} Scenario.start))
              Scenario.lost_error) as [Hr Hm];
    [vm_compute; reflexivity .. |].
  split; [exact Hr | now rewrite Hm].
Defined.

(** ** The analyzer: what a call leaves on the outbound channel *)

Section AnalyzerFacts.

Variable fs : os.FileSystem.
Variable backend : AiProxy.Backend.

Import Analyzer.
Local Open Scope analyzer_scope.

Lemma silent_ret {A : Type} (a : A) : silent (ret a).
Proof. intros st. reflexivity. Qed.

Lemma silent_panic {A : Type} (msg : string) : silent (@panic A msg).
Proof. intros st. reflexivity. Qed.

Lemma silent_Log (severity : Severity) (text : string) :
  silent (Log severity text).
Proof. intros st. reflexivity. Qed.

Lemma silent_bind {A B : Type} (c : M A) (k : A -> M B) :
  silent c -> (forall a, silent (k a)) -> silent (bind c k).
Proof.
  intros Hc Hk st. unfold bind. specialize (Hc st).
  destruct (c st) as [[a|msg] st1]; cbn in *; [|exact Hc].
  now rewrite Hk.
Qed.

Lemma silent_SendRequestWithImage (prompt : string) (reader : Reader) :
  silent (SendRequestWithImage backend prompt reader).
Proof.
  intros st. unfold SendRequestWithImage.
  now destruct (AiProxy.SendRequestWithImage _ _ _).
Qed.

Lemma silent_at_index {A : Type} (s : list A) (i : Z) : silent (at_index s i).
Proof. unfold at_index. case_match; [apply silent_ret | apply silent_panic]. Qed.

Create HintDb silent.
#[local] Hint Resolve silent_ret silent_panic silent_Log
  silent_SendRequestWithImage
  silent_at_index : silent.

Ltac silent_step :=
  first [ apply silent_bind; [|intros ?]
        | solve [auto with silent]
        | case_match ].

Lemma silent_scanTableOfContent (folder : string) (pages : list MagazinePage) :
  forall t, silent (scanTableOfContent fs backend folder pages t).
Proof.
  induction pages as [|page pages IH]; intros t; cbn [scanTableOfContent];
    repeat silent_step; apply IH.
Qed.

Lemma silent_scanPageNumbers (magazinePages : MagazinePages)
    (pageNumbers : list Z) :
  forall games,
    silent (scanPageNumbers fs backend magazinePages pageNumbers games).
Proof.
  induction pageNumbers as [|n pageNumbers IH]; intros games;
    cbn [scanPageNumbers]; repeat silent_step; apply IH.
Qed.

Lemma silent_scanEntries (magazinePages : MagazinePages)
    (entries : list TableContentEntry) :
  forall games, silent (scanEntries fs backend magazinePages entries games).
Proof.
  induction entries as [|entry entries IH]; intros games;
    cbn [scanEntries]; [apply silent_ret|].
  apply silent_bind; [apply silent_scanPageNumbers|].
  intros [games'|]; [apply IH | apply silent_ret].
Qed.

Lemma silent_analyzeTableOfContent (magazinePages : MagazinePages) :
  silent (analyzeTableOfContent fs backend magazinePages).
Proof.
  unfold analyzeTableOfContent. case_match; [apply silent_Log|].
  apply silent_bind; [apply silent_scanTableOfContent|].
  intros e. case_match; [|apply silent_ret].
  apply silent_bind; [apply silent_scanEntries | intros; apply silent_ret].
Qed.

Lemma analyzePages_sends (magazinePages : MagazinePages) (st : State) :
  magazines (snd (analyzePages fs backend magazinePages st)) = magazines st
  \/ exists metadata,
       magazines (snd (analyzePages fs backend magazinePages st))
       = magazines st
           ++ [ {| Metadata := metadata; Pages := PagesOf magazinePages;
                   Folder := PagesFolder magazinePages |} ].
Proof.
  unfold analyzePages, bind, Log, send, ret, SendRequestWithImage.
  repeat case_match; simplify_eq; cbn; eauto.
Qed.

(** C5. For one page set the analyzer sends at most one magazine on
    its outbound channel, and the magazine it sends carries the page
    sequence of the page set, as it is, and its folder. *)
Theorem at_most_one_magazine (magazinePages : MagazinePages) (st : State) :
  exists sent : list Magazine,
    magazines
      (snd ((analyzePages fs backend magazinePages ;;
             analyzeTableOfContent fs backend magazinePages) st))
    = magazines st ++ sent
    /\ (List.length sent <= 1)%nat
    /\ Forall
         (fun m => Pages m = PagesOf magazinePages
                   /\ Folder m = PagesFolder magazinePages) sent.
Proof.
  assert (H : magazines
                (snd ((analyzePages fs backend magazinePages ;;
                       analyzeTableOfContent fs backend magazinePages) st))
              = magazines (snd (analyzePages fs backend magazinePages st))).
  { unfold bind.
    destruct (analyzePages fs backend magazinePages st) as [[[]|msg] st1];
      [apply silent_analyzeTableOfContent | reflexivity]. }
  rewrite H.
  destruct (analyzePages_sends magazinePages st) as [-> | [metadata ->]].
  - exists []. rewrite app_nil_r. repeat split; [cbn; lia | constructor].
  - eexists. split; [reflexivity|]. split; [cbn; lia|].
    repeat constructor.
Qed.

End AnalyzerFacts.

(** ** The analyzer: the cover *)

Section CoverFacts.

Variable fs : os.FileSystem.
Variable backend : AiProxy.Backend.

Import Analyzer.
Local Open Scope analyzer_scope.

(** C4. When the answer of the backend about the cover is empty or is
    the word Unknown, [analyzePages] returns after one audit event of
    severity Error and sends no magazine; the service goes on with the
    table of contents of the page set and with the page sets that
    follow. *)
Theorem unknown_cover_sends_nothing (magazinePages : MagazinePages)
    (cover : MagazinePage) (others : list MagazinePage) (file : string)
    (sent : list (string * string)) (response : string) (st : State) :
  PagesOf magazinePages = cover :: others ->
  os.Stat fs (filepath.Join (PagesFolder magazinePages) (File cover)) = None ->
  os.Open fs (filepath.Join (PagesFolder magazinePages) (File cover))
  = inl file ->
  AiProxy.SendRequestWithImage backend CoverPageAssistantPrompt
    (os.reader fs file) = (sent, inl response) ->
  response = "" \/ response = "Unknown" ->
  let st' :=
    {| audits :=
         audits st
         ++ [ {| AuditSeverity := Information;
                 Text := "Analyzing cover file '" +:+ File cover +:+ "'"
                         +:+ nl |};
              {| AuditSeverity := Error;
                 Text := "Unable to retieve the metadata of the cover file '"
                         +:+ filepath.Join (PagesFolder magazinePages)
                               (File cover) +:+ "'" |} ];
       requests := requests st ++ sent;
       magazines := magazines st;
       closed := closed st |} in
  analyzePages fs backend magazinePages st = (Returned tt, st')
  /\ forall inbound : list MagazinePages,
       receive fs backend (magazinePages :: inbound) st
       = (analyzeTableOfContent fs backend magazinePages ;;
          receive fs backend inbound) st'.
Proof.
  intros Hpages Hstat Hopen Hsend Hresp st'.
  assert (H : analyzePages fs backend magazinePages st = (Returned tt, st')).
  { unfold analyzePages, bind, Log, SendRequestWithImage.
    rewrite Hpages, Hstat, Hopen, Hsend. cbn.
    subst st'. destruct Hresp as [-> | ->]; cbn; now rewrite <- app_assoc. }
  split; [exact H|]. intros inbound. cbn [receive].
  unfold bind at 1. now rewrite H.
Qed.

End CoverFacts.

(** ** The analyzer: the table of contents *)

Section TableFacts.

Variable fs : os.FileSystem.
Variable backend : AiProxy.Backend.

Import Analyzer.
Local Open Scope analyzer_scope.

Lemma with_trail_nil (st : State) : with_trail st [] [] = st.
Proof. destruct st. unfold with_trail. cbn. now rewrite !app_nil_r. Qed.

Lemma with_trail_twice (st : State) (e1 e2 : list Audit)
    (s1 s2 : list (string * string)) :
  with_trail (with_trail st e1 s1) e2 s2 = with_trail st (e1 ++ e2) (s1 ++ s2).
Proof. unfold with_trail. cbn. now rewrite !app_assoc. Qed.

Lemma eqb_usable (t : TableContent) :
  negb (String.eqb (TableError t) "")
  || (Z.of_nat (List.length (Entries t)) =? 0)
  = negb (Design.usable t).
Proof.
  unfold Design.usable. destruct (String.eqb _ _); cbn; [|reflexivity].
  destruct (Entries t); reflexivity.
Qed.

(** One turn of the loop on a page that is read and answered. *)
Lemma scan_answered (folder : string) (page : MagazinePage)
    (pages : list MagazinePage) (answer : string) (t : TableContent)
    (st : State) :
  Design.answered fs backend folder page answer ->
  scanTableOfContent fs backend folder (page :: pages) t st
  = match Unmarshal.TableContent_ answer t with
    | (t', Some e) =>
        scanTableOfContent fs backend folder pages t'
          (with_trail st
             [ {| AuditSeverity := Error;
                  Text := "Unable to decode the table of content of file '"
                          +:+ filepath.Join folder (File page) +:+ "': "
                          +:+ e |};
               {| AuditSeverity := Debug;
                  Text := "Received: " +:+ answer +:+ nl |} ]
             [Design.request_for fs folder page])
    | (t', None) =>
        if Design.usable t'
        then (Returned (Accepted t'),
              with_trail st [] [Design.request_for fs folder page])
        else scanTableOfContent fs backend folder pages t'
               (with_trail st [] [Design.request_for fs folder page])
    end.
Proof.
  intros (Hstat & Hopen & Hsend & Hne).
  cbn [scanTableOfContent]. rewrite Hstat, Hopen.
  unfold bind at 1. unfold SendRequestWithImage at 1. rewrite Hsend.
  apply String.eqb_neq in Hne. rewrite Hne.
  destruct (Unmarshal.TableContent_ answer t) as [t' [e|]].
  - unfold bind, Log. cbn. unfold with_trail. cbn.
    now rewrite <- !app_assoc.
  - rewrite eqb_usable. unfold with_trail. cbn. rewrite app_nil_r.
    now destruct (Design.usable t').
Qed.

(** The loop of the function and the iteration of the document agree
    on pages that are read and answered. *)
Lemma scan_follows_design (folder : string) (pages : list MagazinePage)
    (answers : list string) :
  Forall2 (Design.answered fs backend folder) pages answers ->
  forall (t : TableContent) (st : State),
    scanTableOfContent fs backend folder pages t st
    = (Returned (Design.first_usable answers t),
       with_trail st (Design.decoding_audits folder pages answers t)
         (firstn (Design.consulted answers t)
            (map (Design.request_for fs folder) pages))).
Proof.
  induction 1 as [|page answer pages answers Hpage _ IH]; intros t st.
  - cbn. now rewrite with_trail_nil.
  - rewrite (scan_answered _ _ _ _ _ _ Hpage). cbn.
    destruct (Unmarshal.TableContent_ answer t) as [t' [e|]].
    + rewrite IH, with_trail_twice. reflexivity.
    + destruct (Design.usable t'); [reflexivity|].
      rewrite IH, with_trail_twice. reflexivity.
Qed.

Lemma first_usable_table (answers : list string) (t : TableContent) :
  exists t', table_of (Design.first_usable answers t) = Some t'.
Proof.
  revert t. induction answers as [|answer answers IH]; intros t; cbn.
  - eauto.
  - destruct (Unmarshal.TableContent_ answer t) as [t' [e|]]; [apply IH|].
    destruct (Design.usable t'); [cbn; eauto | apply IH].
Qed.

Lemma scan_app (folder : string) (pre post : list MagazinePage) :
  forall (t : TableContent) (st : State),
    scanTableOfContent fs backend folder (pre ++ post) t st
    = match scanTableOfContent fs backend folder pre t st with
      | (Returned (Exhausted t1), st1) =>
          scanTableOfContent fs backend folder post t1 st1
      | other => other
      end.
Proof.
  induction pre as [|page pre IH]; intros t st; [reflexivity|].
  cbn [app scanTableOfContent].
  destruct (os.Stat _ _); [reflexivity|].
  destruct (os.Open _ _); [|reflexivity].
  unfold bind, SendRequestWithImage.
  destruct (AiProxy.SendRequestWithImage _ _ _) as [sent [response|err]];
    [|reflexivity].
  destruct (String.eqb response ""); [reflexivity|].
  destruct (Unmarshal.TableContent_ _ _) as [t' [e|]]; [apply IH|].
  destruct (_ || _); [apply IH | reflexivity].
Qed.


(** C9. When the candidate pages before [page] have been passed and
    the answer of the backend for [page] is empty, the function
    returns after one audit event of severity Error: no request is
    made for the pages that follow, and no page is resolved. When the
    answer is not empty and cannot be decoded, the loop goes on with
    the pages that follow. *)
Theorem empty_answer_ends_derivation (magazinePages : MagazinePages)
    (cover page : MagazinePage) (pre post : list MagazinePage)
    (st st1 : State) (t1 : TableContent) (file response : string)
    (sent : list (string * string)) :
  PagesOf magazinePages = cover :: pre ++ page :: post ->
  scanTableOfContent fs backend (PagesFolder magazinePages) pre zero_table st
  = (Returned (Exhausted t1), st1) ->
  os.Stat fs (filepath.Join (PagesFolder magazinePages) (File page)) = None ->
  os.Open fs (filepath.Join (PagesFolder magazinePages) (File page))
  = inl file ->
  AiProxy.SendRequestWithImage backend TableOfContentAssistantPrompt
    (os.reader fs file) = (sent, inl response) ->
  (response = "" ->
   analyzeTableOfContent fs backend magazinePages st
   = (Returned tt,
      with_trail st1
        [ {| AuditSeverity := Error;
             Text := "Unable to retieve the metadata of the file '"
                     +:+ filepath.Join (PagesFolder magazinePages)
                           (File page) +:+ "'" |} ]
        sent))
  /\ (forall (t2 : TableContent) (e : string),
        response <> "" ->
        Unmarshal.TableContent_ response t1 = (t2, Some e) ->
        analyzeTableOfContent fs backend magazinePages st
        = (x <- scanTableOfContent fs backend (PagesFolder magazinePages)
                  post t2 ;;
           match table_of x with
           | None => ret tt
           | Some t =>
               scanEntries fs backend magazinePages (Entries t) [] ;; ret tt
           end)
            (with_trail st1
               [ {| AuditSeverity := Error;
                    Text := "Unable to decode the table of content of file '"
                            +:+ filepath.Join (PagesFolder magazinePages)
                                  (File page) +:+ "': " +:+ e |};
                 {| AuditSeverity := Debug;
                    Text := "Received: " +:+ response +:+ nl |} ]
               sent)).
Proof.
  intros Hpages Hpre Hstat Hopen Hsend.
  assert (Hscan :
    scanTableOfContent fs backend (PagesFolder magazinePages)
      (pre ++ page :: post) zero_table st
    = scanTableOfContent fs backend (PagesFolder magazinePages)
        (page :: post) t1 st1) by now rewrite scan_app, Hpre.
  split.
  - intros ->. unfold analyzeTableOfContent. rewrite Hpages.
    unfold bind at 1. rewrite Hscan. cbn [scanTableOfContent].
    rewrite Hstat, Hopen. unfold bind at 1, SendRequestWithImage at 1.
    rewrite Hsend. reflexivity.
  - intros t2 e Hne Hdec. unfold analyzeTableOfContent. rewrite Hpages.
    unfold bind at 1. rewrite Hscan. cbn [scanTableOfContent].
    rewrite Hstat, Hopen. unfold bind at 1, SendRequestWithImage at 1.
    rewrite Hsend. apply String.eqb_neq in Hne. rewrite Hne, Hdec.
    unfold bind at 1 2, Log at 1 2. cbn [fst snd].
    unfold with_trail. cbn. rewrite <- !app_assoc. reflexivity.
Qed.

(** A page number that no page of the set carries makes the resolution
    panic. *)
Lemma scanPageNumbers_unknown (magazinePages : MagazinePages)
    (pageNumber : Z) (pageNumbers : list Z) (games : list Game) (st : State) :
  IndexFunc (PagesOf magazinePages) (fun p => PageNumber p =? pageNumber)
  = -1 ->
  scanPageNumbers fs backend magazinePages (pageNumber :: pageNumbers)
    games st
  = (Panicked "runtime error: index out of range [-1]", st).
Proof. intros H. cbn [scanPageNumbers]. rewrite H. reflexivity. Qed.

End TableFacts.

(** An object without the key [entries] leaves the entries of the
    content index as they are. *)
Lemma absent_entries_key (members : list (string * json.value))
    (t : TableContent) (err : option string) :
  forallb (fun m => negb (Unmarshal.names (fst m) "entries")) members = true ->
  Entries
    (fst (fold_left
            (fun (acc : Unmarshal.result TableContent) m =>
               let (x, e) := Unmarshal.set_table (fst m) (snd m) (fst acc) in
               (x, Unmarshal.first_error (snd acc) e))
            members (t, err)))
  = Entries t.
Proof.
  revert t err. induction members as [|[key v] members IH]; intros t err;
    cbn [forallb fold_left fst snd]; [reflexivity|].
  intros [Hk Hm]%andb_prop. apply negb_true_iff in Hk.
  unfold Unmarshal.set_table at 2. rewrite Hk.
  destruct (Unmarshal.names key "error").
  - destruct (Unmarshal.into_string _ _) as [x e]. now rewrite IH.
  - now rewrite IH.
Qed.

(** C3. The page set of three pages, numbered 1 to 3, whose second page
    is answered with an entry for page 9: the resolution indexes the
    pages at -1 and the call panics; so does the loop of the service,
    which never closes its outbound channel. *)
Theorem unknown_page_number_panics :
  Analyzer.analyzeTableOfContent Scenario.disk
    (Scenario.by_page Scenario.tilt_answer (Scenario.tests_on "9") "")
    Scenario.A1 Analyzer.initial
  = (Analyzer.Panicked "runtime error: index out of range [-1]",
     {| Analyzer.audits := [];
        Analyzer.requests :=
          [ (Analyzer.TableOfContentAssistantPrompt, Scenario.url "page-2") ];
        Analyzer.magazines := [];
        Analyzer.closed := false |})
  /\ fst (Analyzer.monitor Scenario.disk
            (Scenario.by_page Scenario.tilt_answer (Scenario.tests_on "9") "")
            [Scenario.A1; Scenario.A1] Analyzer.initial)
     = Analyzer.Panicked "runtime error: index out of range [-1]"
  /\ Analyzer.closed
       (snd (Analyzer.monitor Scenario.disk
               (Scenario.by_page Scenario.tilt_answer (Scenario.tests_on "9") "")
               [Scenario.A1; Scenario.A1] Analyzer.initial))
     = false.
Proof. vm_compute. repeat split. Qed.

(** C10. The second page answers with an error and one entry, the third
    with an empty error and no entries key. Neither answer gives a
    usable content index on its own; the loop ends on the third page and
    takes a content index made of the error of the third page and the
    entries of the second. *)
Theorem stale_entries_are_accepted :
  exists (early late : string) (entries : list TableContentEntry),
    entries <> []
    /\ Unmarshal.TableContent_ early Analyzer.zero_table
       = ({| TableError := "no summary found"; Entries := entries |}, None)
    /\ Unmarshal.TableContent_ late Analyzer.zero_table
       = ({| TableError := ""; Entries := [] |}, None)
    /\ Analyzer.scanTableOfContent Scenario.disk
         (Scenario.by_page Scenario.tilt_answer early late) "/in/A1"
         [Scenario.p2; Scenario.p3] Analyzer.zero_table Analyzer.initial
       = (Analyzer.Returned
            (Analyzer.Accepted {| TableError := ""; Entries := entries |}),
          {| Analyzer.audits := [];
             Analyzer.requests :=
               [ (Analyzer.TableOfContentAssistantPrompt, Scenario.url "page-2");
                 (Analyzer.TableOfContentAssistantPrompt, Scenario.url "page-3") ];
             Analyzer.magazines := [];
             Analyzer.closed := false |}).
Proof.
  exists (Scenario.json_text
            "{'error':'no summary found','entries':[{'title':'Tests','pageNumbers':[3]}]}"),
         (Scenario.json_text "{'error':''}"),
         [ {| EntryTitle := "Tests"; PageNumbers := [3] |} ].
  split; [discriminate|]. vm_compute. repeat split.
Qed.

Lemma unknown_cover_sends_nothing_witness :
  fst (Analyzer.analyzePages Scenario.disk
         (Scenario.by_page "Unknown" "" "") Scenario.A1 Analyzer.initial)
  = Analyzer.Returned tt
  /\ Analyzer.magazines
       (snd (Analyzer.analyzePages Scenario.disk
               (Scenario.by_page "Unknown" "" "") Scenario.A1 Analyzer.initial))
     = []
  /\ map AuditSeverity
       (Analyzer.audits
          (snd (Analyzer.analyzePages Scenario.disk
                  (Scenario.by_page "Unknown" "" "") Scenario.A1
                  Analyzer.initial)))
     = [Information; Error].
Proof.
  destruct (unknown_cover_sends_nothing Scenario.disk
              (Scenario.by_page "Unknown" "" "") Scenario.A1 Scenario.p1
              [Scenario.p2; Scenario.p3] "/in/A1/p1.jpg"
              [(Analyzer.CoverPageAssistantPrompt, Scenario.url "cover!")]
              "Unknown" Analyzer.initial) as [H _];
    [vm_compute; reflexivity .. | right; reflexivity |].
  rewrite H. repeat split.
Defined.


Lemma empty_answer_ends_derivation_witness :
  Analyzer.analyzeTableOfContent Scenario.disk
    (Scenario.by_page Scenario.tilt_answer "" (Scenario.tests_on "3"))
    Scenario.A1 Analyzer.initial
  = (Analyzer.Returned tt,
     {| Analyzer.audits :=
          [ {| AuditSeverity := Error;
               Text := "Unable to retieve the metadata of the file '/in/A1/p2.jpg'" |} ];
        Analyzer.requests :=
          [ (Analyzer.TableOfContentAssistantPrompt, Scenario.url "page-2") ];
        Analyzer.magazines := [];
        Analyzer.closed := false |})
  /\ Analyzer.requests
       (snd (Analyzer.analyzeTableOfContent Scenario.disk
               (Scenario.by_page Scenario.tilt_answer "Sorry, no summary here."
                  (Scenario.tests_on "3"))
               Scenario.A1 Analyzer.initial))
     = [ (Analyzer.TableOfContentAssistantPrompt, Scenario.url "page-2");
         (Analyzer.TableOfContentAssistantPrompt, Scenario.url "page-3");
         (Analyzer.GameTestedAssistantPrompt, Scenario.url "page-3") ].
Proof.
  split.
  - destruct (empty_answer_ends_derivation Scenario.disk
                (Scenario.by_page Scenario.tilt_answer "" (Scenario.tests_on "3"))
                Scenario.A1 Scenario.p1 Scenario.p2 [] [Scenario.p3]
                Analyzer.initial Analyzer.initial Analyzer.zero_table
                "/in/A1/p2.jpg" ""
                [(Analyzer.TableOfContentAssistantPrompt, Scenario.url "page-2")])
      as [H _]; [vm_compute; reflexivity .. |].
    rewrite H by reflexivity. vm_compute. reflexivity.
  - destruct (empty_answer_ends_derivation Scenario.disk
                (Scenario.by_page Scenario.tilt_answer "Sorry, no summary here."
                   (Scenario.tests_on "3"))
                Scenario.A1 Scenario.p1 Scenario.p2 [] [Scenario.p3]
                Analyzer.initial Analyzer.initial Analyzer.zero_table
                "/in/A1/p2.jpg" "Sorry, no summary here."
                [(Analyzer.TableOfContentAssistantPrompt, Scenario.url "page-2")])
      as [_ H]; [vm_compute; reflexivity .. |].
    rewrite (H Analyzer.zero_table "invalid character in JSON input");
      [vm_compute; reflexivity | discriminate | vm_compute; reflexivity].
Defined.

(** ** Answers of the requested shape are read on their own *)

Lemma names_entries_not_error (key : string) :
  Unmarshal.names key "entries" = true -> Unmarshal.names key "error" = false.
Proof.
  unfold Unmarshal.names. intros H%String.eqb_eq. rewrite H. reflexivity.
Qed.

Lemma into_slice_fresh {A : Type} (zero : A)
    (into_elem : A -> json.value -> Unmarshal.result A) (goType : string)
    (old1 old2 : list A) (v : json.value) :
  match v with json.Arr _ | json.Null => true | _ => false end = true ->
  Unmarshal.into_slice zero into_elem goType old1 v
  = Unmarshal.into_slice zero into_elem goType old2 v.
Proof. destruct v; intros H; try discriminate; reflexivity. Qed.

Lemma set_table_agree (key : string) (v : json.value) (t1 t2 : TableContent)
    (be bn : bool) :
  Design.agree be bn t1 t2 ->
  snd (Unmarshal.set_table key v t1) = snd (Unmarshal.set_table key v t2)
  /\ Design.agree (be || Design.sets_error (key, v)) (bn || Design.sets_entries (key, v))
       (fst (Unmarshal.set_table key v t1)) (fst (Unmarshal.set_table key v t2)).
Proof.
  intros [He Hn]. unfold Unmarshal.set_table, Design.sets_error,
    Design.sets_entries, Design.agree. cbn [fst snd].
  destruct (Unmarshal.names key "error") eqn:Herr.
  - assert (Hent : Unmarshal.names key "entries" = false).
    { destruct (Unmarshal.names key "entries") eqn:E; [|reflexivity].
      apply names_entries_not_error in E. congruence. }
    rewrite Hent. cbn [andb]. rewrite orb_false_r.
    destruct v; cbn; rewrite ?orb_true_r, ?orb_false_r; auto.
  - cbn [andb]. rewrite orb_false_r.
    destruct (Unmarshal.names key "entries"); cbn [andb].
    + destruct (match v with json.Arr _ | json.Null => true | _ => false end)
        eqn:Hk.
      * rewrite (into_slice_fresh _ _ _ (Entries t1) (Entries t2) v Hk).
        destruct (Unmarshal.into_slice _ _ _ _ _) as [x e]. cbn.
        rewrite orb_true_r. auto.
      * rewrite orb_false_r.
        destruct v; try discriminate; cbn; auto.
    + rewrite orb_false_r. auto.
Qed.

Lemma fold_set_table_agree (members : list (string * json.value)) :
  forall (t1 t2 : TableContent) (e : option string) (be bn : bool),
    Design.agree be bn t1 t2 ->
    let step :=
      fun (acc : Unmarshal.result TableContent) (m : string * json.value) =>
        let (x, err) := Unmarshal.set_table (fst m) (snd m) (fst acc) in
        (x, Unmarshal.first_error (snd acc) err) in
    snd (fold_left step members (t1, e)) = snd (fold_left step members (t2, e))
    /\ Design.agree (be || existsb Design.sets_error members)
         (bn || existsb Design.sets_entries members)
         (fst (fold_left step members (t1, e)))
         (fst (fold_left step members (t2, e))).
Proof.
  induction members as [|[key v] members IH]; intros t1 t2 e be bn H step.
  - cbn. rewrite !orb_false_r. auto.
  - subst step. cbn [fold_left fst snd existsb].
    destruct (set_table_agree key v t1 t2 be bn H) as [Hs Ha].
    destruct (Unmarshal.set_table key v t1) as [x1 e1].
    destruct (Unmarshal.set_table key v t2) as [x2 e2].
    cbn [fst snd] in *. subst e2. rewrite !orb_assoc. now apply IH.
Qed.

(** An answer that carries both keys decodes to the same content index
    whatever the index held before: for such answers the content index
    the loop tests is the one of the page alone. *)
Lemma complete_answer_alone (answer : string) (t : TableContent) :
  Design.complete answer = true ->
  Unmarshal.TableContent_ answer t
  = Unmarshal.TableContent_ answer Analyzer.zero_table.
Proof.
  unfold Design.complete, Unmarshal.TableContent_, Unmarshal.Unmarshal.
  destruct (json.parse answer) as [[| | | | |members]|]; try discriminate.
  intros [He Hn]%andb_prop.
  destruct (fold_set_table_agree members t Analyzer.zero_table None
              false false) as [Hs [Ha1 Ha2]].
  { split; discriminate. }
  rewrite He in Ha1. rewrite Hn in Ha2.
  specialize (Ha1 eq_refl). specialize (Ha2 eq_refl).
  assert (Hext : forall r1 r2 : Unmarshal.result TableContent,
            snd r1 = snd r2 ->
            TableError (fst r1) = TableError (fst r2) ->
            Entries (fst r1) = Entries (fst r2) -> r1 = r2)
    by (intros [[] ?] [[] ?]; cbn; congruence).
  apply Hext; [exact Hs | exact Ha1 | exact Ha2].
Qed.

Lemma complete_answers_alone (answers : list string) :
  forallb Design.complete answers = true ->
  forall t, Design.first_usable answers t = Design.first_usable_alone answers t.
Proof.
  induction answers as [|answer answers IH]; intros H t; [reflexivity|].
  cbn in H. apply andb_prop in H as [Ha Hr]. cbn.
  rewrite (complete_answer_alone answer t Ha).
  destruct (Unmarshal.TableContent_ answer Analyzer.zero_table) as [t' [e|]];
    [now apply IH|].
  destruct (Design.usable t'); [reflexivity | now apply IH].
Qed.

(** ** The scenario of the design document, end to end *)

(** The folder [A1], the cover answered with the metadata of Tilt 42 and
    every other page with "no summary found": the analyzer sends one
    magazine, closes its channel, and asks for no game; the copier puts
    the three pages in place. *)
Example pipeline_tilt :
  Analyzer.monitor Scenario.disk
    (Scenario.by_page Scenario.tilt_answer Scenario.no_summary
       Scenario.no_summary)
    [Scenario.A1] Analyzer.initial
  = (Analyzer.Returned tt,
     {| Analyzer.audits :=
          [ {| AuditSeverity := Information;
               Text := "Analyzing cover file 'p1.jpg'" +:+ Analyzer.nl |};
            {| AuditSeverity := Information;
               Text := "Analysis done: found publication title is 'Tilt' and its number is '42'" |};
            {| AuditSeverity := Information;
               Text := "Analyzer service stopped." |} ];
        Analyzer.requests :=
          [ (Analyzer.CoverPageAssistantPrompt, Scenario.url "cover!");
            (Analyzer.TableOfContentAssistantPrompt, Scenario.url "page-2");
            (Analyzer.TableOfContentAssistantPrompt, Scenario.url "page-3") ];
        Analyzer.magazines := [Scenario.tilt];
        Analyzer.closed := true |})
  /\ fst (Copier.monitor "/out" [Scenario.tilt] Scenario.start) = (None, [])
  /\ map (fun name =>
            os.files
              (Copier.fs (snd (Copier.monitor "/out" [Scenario.tilt]
                                 Scenario.start)))
            !! ("/out/test-Tilt/Numéro 42 | Juin 1991/" +:+ name))
       ["001.jpg"; "002.jpg"; "003.jpg"]
     = [ Some (Scenario.bytes "cover!"); Some (Scenario.bytes "page-2");
         Some (Scenario.bytes "page-3") ].
Proof. vm_compute. repeat split. Qed.

(** ** Paths made of plain names *)

Lemma append_cons (c : ascii) (s t : string) :
  String c s +:+ t = String c (s +:+ t).
Proof. reflexivity. Qed.

Lemma split_no_slash (s : string) :
  filepath.no_slash s = true -> filepath.split s = [s].
Proof.
  induction s as [|c r IH]; [reflexivity|]. cbn [filepath.no_slash].
  intros [Hc Hr]%andb_prop. cbn [filepath.split].
  apply negb_true_iff in Hc. rewrite Hc, (IH Hr). reflexivity.
Qed.

Lemma split_app (s1 s2 : string) :
  filepath.no_slash s1 = true ->
  filepath.split (s1 +:+ String "/" s2) = s1 :: filepath.split s2.
Proof.
  induction s1 as [|c r IH]; [reflexivity|]. cbn [filepath.no_slash].
  intros [Hc Hr]%andb_prop. rewrite append_cons. cbn [filepath.split].
  apply negb_true_iff in Hc. rewrite Hc, (IH Hr). reflexivity.
Qed.

Lemma simple_no_slash (name : string) :
  filepath.simple name = true -> filepath.no_slash name = true.
Proof. unfold filepath.simple. now intros [[[H _]%andb_prop _]%andb_prop _]%andb_prop. Qed.

Lemma concat_cons2 (x y : string) (r : list string) :
  String.concat "/" (x :: y :: r) = x +:+ String "/" (String.concat "/" (y :: r)).
Proof. reflexivity. Qed.

Lemma split_concat (elems : list string) :
  elems <> [] -> Forall (fun e => filepath.simple e = true) elems ->
  filepath.split (String.concat "/" elems) = elems.
Proof.
  induction elems as [|x [|y r] IH]; intros Hne Hall; [congruence| |].
  - apply split_no_slash, simple_no_slash. now inversion Hall.
  - rewrite concat_cons2. inversion Hall as [|? ? Hx Hrest]; subst.
    rewrite split_app by now apply simple_no_slash.
    rewrite IH; [reflexivity | discriminate | exact Hrest].
Qed.

Lemma concat_snoc (elems : list string) (name : string) :
  elems <> [] ->
  String.concat "/" (elems ++ [name])
  = String.concat "/" elems +:+ String "/" name.
Proof.
  induction elems as [|x [|y r] IH]; intros Hne; [congruence|reflexivity|].
  change ((x :: y :: r) ++ [name]) with (x :: y :: (r ++ [name])).
  rewrite !concat_cons2. change (y :: r ++ [name]) with ((y :: r) ++ [name]).
  rewrite IH by discriminate. rewrite append_assoc. reflexivity.
Qed.

Lemma walk_simple (rooted : bool) (elems : list string) :
  Forall (fun e => filepath.simple e = true) elems ->
  forall stack, filepath.walk rooted stack elems = rev stack ++ elems.
Proof.
  induction 1 as [|e elems He _ IH]; intros stack; cbn [filepath.walk].
  - now rewrite app_nil_r.
  - unfold filepath.simple in He.
    apply andb_prop in He as [[[_ H0]%andb_prop H1]%andb_prop H2].
    apply negb_true_iff in H0, H1, H2. rewrite H0, H1, H2. cbn [orb].
    rewrite IH. cbn [rev]. now rewrite <- app_assoc.
Qed.

(** Joining a plain root and a plain name puts a slash between them. *)
Lemma Join_plain (root name : string) :
  filepath.plain_root root -> filepath.simple name = true ->
  filepath.Join root name = root +:+ "/" +:+ name
  /\ filepath.plain_root (root +:+ "/" +:+ name).
Proof.
  intros (elems & Hne & Hall & ->) Hname.
  assert (Hall' : Forall (fun e => filepath.simple e = true) (elems ++ [name]))
    by (apply Forall_app; split; [exact Hall | now constructor]).
  assert (Hpath : ("/" +:+ String.concat "/" elems) +:+ "/" +:+ name
                  = "/" +:+ String.concat "/" (elems ++ [name])).
  { rewrite concat_snoc by exact Hne. rewrite append_assoc. reflexivity. }
  split.
  - unfold filepath.Join. change (String.eqb ("/" +:+ String.concat "/" elems) "")
      with false. cbv iota. rewrite Hpath.
    unfold filepath.Clean.
    change (String.eqb ("/" +:+ String.concat "/" (elems ++ [name])) "")
      with false.
    change (filepath.rooted ("/" +:+ String.concat "/" (elems ++ [name])))
      with true. cbv iota zeta.
    change (filepath.split ("/" +:+ String.concat "/" (elems ++ [name])))
      with ("" :: filepath.split (String.concat "/" (elems ++ [name]))).
    rewrite split_concat; [|now destruct elems | exact Hall'].
    cbn [filepath.walk String.eqb orb]. rewrite walk_simple by exact Hall'.
    reflexivity.
  - exists (elems ++ [name]). repeat split; [now destruct elems | exact Hall' |].
    exact Hpath.
Qed.

Lemma simple_of_head (name : string) :
  filepath.no_slash name = true -> filepath.plain_head name = true ->
  filepath.simple name = true.
Proof.
  unfold filepath.simple. intros -> Hh. destruct name as [|c r]; [discriminate|].
  cbn in Hh. apply negb_true_iff in Hh. cbn. rewrite Hh.
  reflexivity.
Qed.

Lemma no_slash_app (a b : string) :
  filepath.no_slash (a +:+ b) = filepath.no_slash a && filepath.no_slash b.
Proof.
  induction a as [|c r IH]; [reflexivity|].
  rewrite append_cons. cbn [filepath.no_slash]. now rewrite IH, andb_assoc.
Qed.

Lemma plain_head_app (a b : string) :
  filepath.plain_head a = true -> filepath.plain_head (a +:+ b) = true.
Proof. destruct a; [discriminate | exact (fun H => H)]. Qed.

Lemma uint_no_slash (d : Decimal.uint) :
  filepath.no_slash (NilEmpty.string_of_uint d) = true.
Proof. induction d; cbn; auto. Qed.

Lemma fmt_d_plain (n : Z) :
  filepath.no_slash (GoString.fmt_d n) = true
  /\ filepath.plain_head (GoString.fmt_d n) = true.
Proof.
  unfold GoString.fmt_d, NilZero.string_of_uint.
  destruct (N.to_uint (Z.to_N n)) as [|d|d|d|d|d|d|d|d|d|d];
    (split; [|reflexivity]); try reflexivity;
    cbn [NilEmpty.string_of_uint filepath.no_slash]; apply uint_no_slash.
Qed.

Lemma repeat_zero_no_slash (k : nat) :
  filepath.no_slash (GoString.repeat_char "0" k) = true.
Proof. induction k; cbn; auto. Qed.

Lemma fmt_0d_plain (width : nat) (n : Z) :
  filepath.no_slash (GoString.fmt_0d width n) = true
  /\ filepath.plain_head (GoString.fmt_0d width n) = true.
Proof.
  unfold GoString.fmt_0d. destruct (fmt_d_plain n) as [Hs Hh]. split.
  - now rewrite no_slash_app, repeat_zero_no_slash, Hs.
  - destruct (width - String.length (GoString.fmt_d n))%nat; [exact Hh|].
    reflexivity.
Qed.

Lemma lower_ascii_slash (c : ascii) :
  Ascii.eqb (GoString.lower_ascii c) "/" = Ascii.eqb c "/".
Proof.
  destruct c as [[] [] [] [] [] [] [] []]; reflexivity.
Qed.

Lemma ToLower_no_slash (s : string) :
  filepath.no_slash (GoString.ToLower s) = filepath.no_slash s.
Proof.
  induction s as [|c r IH]; [reflexivity|].
  cbn [GoString.ToLower filepath.no_slash]. unfold filepath.Separator.
  now rewrite lower_ascii_slash, IH.
Qed.

Lemma ext_from_no_slash (l acc : list ascii) :
  filepath.no_slash (string_of_list_ascii acc) = true ->
  filepath.no_slash (filepath.ext_from l acc) = true.
Proof.
  revert acc. induction l as [|c l IH]; intros acc Hacc; [reflexivity|].
  cbn [filepath.ext_from].
  destruct (Ascii.eqb c filepath.Separator) eqn:Hc; [reflexivity|].
  destruct (Ascii.eqb c "."); [|apply IH];
    cbn [string_of_list_ascii filepath.no_slash]; now rewrite Hc, Hacc.
Qed.

Lemma month_at_no_slash (i : Z) :
  filepath.no_slash (Copier.month_at i) = true.
Proof.
  unfold Copier.month_at.
  destruct (nth_in_or_default (Z.to_nat i) Copier.months "") as [H | ->];
    [|reflexivity].
  revert H. generalize (nth (Z.to_nat i) Copier.months ""). intros name.
  cbn. intuition (subst; reflexivity).
Qed.

Lemma concat_no_slash (sep : string) (names : list string) :
  filepath.no_slash sep = true ->
  Forall (fun name => filepath.no_slash name = true) names ->
  filepath.no_slash (String.concat sep names) = true.
Proof.
  intros Hsep. induction 1 as [|x [|y r] Hx Hr IH]; [reflexivity|exact Hx|].
  change (String.concat sep (x :: y :: r))
    with (x +:+ sep +:+ String.concat sep (y :: r)).
  now rewrite !no_slash_app, Hx, Hsep, IH.
Qed.

Lemma months_no_slash (nums : list Z) :
  filepath.no_slash (GoString.Join (Copier.toNames nums) " - ") = true.
Proof.
  unfold GoString.Join, Copier.toNames. apply concat_no_slash; [reflexivity|].
  rewrite toNames_from. cbn [app]. apply Forall_map, Forall_forall.
  intros n _. apply month_at_no_slash.
Qed.

(** X8. The destination of a page as a text, when the root is a rooted path
    of plain names and the title holds no slash: root, [/test-] and the
    title, [/Numéro ], the issue number on two digits, [ | ], the months,
    a space, the year, a slash, the page number on three digits and the
    lower-cased extension. *)
Lemma destination_spelled (root : string) (metadata : MagazineMetadata)
    (page : MagazinePage) :
  filepath.plain_root root ->
  filepath.no_slash (Title metadata) = true ->
  Design.destination (Design.issue_folder root metadata) page
  = ((root +:+ "/" +:+ "test-" +:+ Title metadata)
     +:+ "/" +:+ "Numéro " +:+ GoString.fmt_0d 2 (Number metadata) +:+ " | "
     +:+ GoString.Join (Copier.toNames (Month metadata)) " - " +:+ " "
     +:+ GoString.fmt_d (Year metadata))
    +:+ "/" +:+ GoString.fmt_0d 3 (PageNumber page)
    +:+ GoString.ToLower (filepath.Ext (File page)).
Proof.
  intros Hroot Htitle. unfold Design.destination, Design.issue_folder.
  destruct (Join_plain root ("test-" +:+ Title metadata) Hroot) as [-> Hr1].
  { apply simple_of_head; [|reflexivity].
    rewrite no_slash_app, Htitle. reflexivity. }
  destruct (Join_plain _
              ("Numéro " +:+ GoString.fmt_0d 2 (Number metadata) +:+ " | "
               +:+ GoString.Join (Copier.toNames (Month metadata)) " - "
               +:+ " " +:+ GoString.fmt_d (Year metadata)) Hr1) as [-> Hr2].
  { apply simple_of_head; [|reflexivity].
    rewrite !no_slash_app, months_no_slash.
    rewrite (proj1 (fmt_0d_plain 2 (Number metadata))).
    rewrite (proj1 (fmt_d_plain (Year metadata))). reflexivity. }
  destruct (Join_plain _
              (GoString.fmt_0d 3 (PageNumber page)
               +:+ GoString.ToLower (filepath.Ext (File page))) Hr2) as [-> _].
  { apply simple_of_head.
    - rewrite no_slash_app, ToLower_no_slash.
      rewrite (proj1 (fmt_0d_plain 3 (PageNumber page))).
      unfold filepath.Ext. now rewrite ext_from_no_slash.
    - apply plain_head_app, fmt_0d_plain. }
  reflexivity.
Qed.

(** * Further properties of the code *)

(** ** The copier keeps what is on the disk *)

Lemma kept_refl (a : os.FileSystem) : Keeps.kept a a.
Proof. repeat split; set_solver. Qed.

Lemma kept_trans (a b c : os.FileSystem) :
  Keeps.kept a b -> Keeps.kept b c -> Keeps.kept a c.
Proof.
  intros (H1 & H2 & H3 & H4) (G1 & G2 & G3 & G4).
  repeat split; [set_solver | set_solver | congruence | congruence].
Qed.

Lemma mkdir_if_absent_kept (path : string) (st st' : Copier.State)
    (r : option string) :
  Copier.mkdir_if_absent path st = (r, st') ->
  Keeps.kept (Copier.fs st) (Copier.fs st')
  /\ os.files (Copier.fs st') = os.files (Copier.fs st).
Proof.
  unfold Copier.mkdir_if_absent, os.Mkdir.
  destruct (os.IsNotExist _);
    [|intros [= <- <-]; split; [apply kept_refl | reflexivity]].
  destruct (bool_decide _);
    [intros [= <- <-]; split; [apply kept_refl | reflexivity]|].
  destruct (os.exists_ _ _); intros [= <- <-];
    (split; [|reflexivity]); [apply kept_refl|].
  repeat split; cbn; set_solver.
Qed.

(** One page: whatever the outcome, no path but the destination changes,
    and nothing is removed. *)
Lemma copyPage_frame (folder source : string) (page : MagazinePage)
    (st st' : Copier.State) (r : option string) :
  Copier.copyPage folder source page st = (r, st') ->
  Keeps.kept (Copier.fs st) (Copier.fs st')
  /\ os.dirs (Copier.fs st') = os.dirs (Copier.fs st)
  /\ forall path, path <> Design.destination folder page ->
       os.files (Copier.fs st') !! path = os.files (Copier.fs st) !! path.
Proof.
  unfold Copier.copyPage. fold (Design.destination folder page).
  destruct (os.Open _ _) as [src|err];
    [|intros [= <- <-]; split; [apply kept_refl | now split]].
  unfold os.Create.
  destruct (bool_decide _);
    [intros [= <- <-]; split; [apply kept_refl | now split]|].
  destruct (bool_decide _);
    [intros [= <- <-]; split; [apply kept_refl | now split]|].
  unfold os.Copy.
  destruct (failure _); intros [= <- <-]; cbn;
    (split; [repeat split; cbn; rewrite ?dom_insert_L; set_solver|]);
    (split; [reflexivity|]);
    intros path Hp; now rewrite !lookup_insert_ne by congruence.
Qed.

Lemma copyPages_frame (folder source : string) (pages : list MagazinePage) :
  forall (st st' : Copier.State) (r : option string),
    Copier.copyPages folder source pages st = (r, st') ->
    Keeps.kept (Copier.fs st) (Copier.fs st')
    /\ os.dirs (Copier.fs st') = os.dirs (Copier.fs st)
    /\ forall path,
         path ∉ map (Design.destination folder) pages ->
         os.files (Copier.fs st') !! path = os.files (Copier.fs st) !! path.
Proof.
  induction pages as [|page pages IH]; intros st st' r; cbn [Copier.copyPages].
  - intros [= <- <-]. split; [apply kept_refl | now split].
  - destruct (Copier.copyPage folder source page st) as [[err|] st1] eqn:Hp;
      apply copyPage_frame in Hp as (Hk & Hd & Hf).
    + intros [= <- <-]. split; [exact Hk|]. split; [exact Hd|].
      intros path Hn. apply Hf. intros ->. apply Hn. cbn. left.
    + intros H. apply IH in H as (Hk' & Hd' & Hf').
      split; [eapply kept_trans; eauto|]. split; [congruence|].
      intros path Hn. rewrite Hf', Hf; [reflexivity| |].
      * intros ->. apply Hn. cbn. left.
      * intros Hin. apply Hn. cbn. now right.
Qed.

Section CopierKeeps.

Variable workingDirectory : string.

Lemma renameFiles_kept (magazine : Magazine) (st : Copier.State) :
  Keeps.kept (Copier.fs st)
    (Copier.fs (snd (Copier.renameFiles workingDirectory magazine st))).
Proof.
  unfold Copier.renameFiles.
  destruct (Copier.mkdir_if_absent _ _) as [[e1|] st1] eqn:H1;
    apply mkdir_if_absent_kept in H1 as [K1 _]; cbn in K1; [exact K1|].
  destruct (Copier.mkdir_if_absent _ st1) as [[e2|] st2] eqn:H2;
    apply mkdir_if_absent_kept in H2 as [K2 _];
    [cbn; eapply kept_trans; eauto|].
  destruct (Copier.copyPages _ _ _ st2) as [r st3] eqn:H3.
  apply copyPages_frame in H3 as (K3 & _ & _). cbn [snd].
  eapply kept_trans; [|exact K3]. eapply kept_trans; eauto.
Qed.

(** X1. Whether it succeeds or fails, [renameFiles] removes no file and
    no directory, changes no permission, and leaves every file that is
    not the destination of one of its pages as it was. *)
Theorem renameFiles_frame (magazine : Magazine) (st : Copier.State) :
  Keeps.kept (Copier.fs st)
    (Copier.fs (snd (Copier.renameFiles workingDirectory magazine st)))
  /\ forall path,
       path ∉ map (Design.destination
                     (Design.issue_folder workingDirectory (Metadata magazine)))
                (Pages magazine) ->
       os.files (Copier.fs (snd (Copier.renameFiles workingDirectory magazine st)))
         !! path
       = os.files (Copier.fs st) !! path.
Proof.
  unfold Copier.renameFiles.
  destruct (Copier.mkdir_if_absent _ _) as [[e1|] st1] eqn:H1;
    apply mkdir_if_absent_kept in H1 as [K1 F1]; cbn in K1, F1.
  - cbn. split; [exact K1 | intros; now rewrite F1].
  - destruct (Copier.mkdir_if_absent _ st1) as [[e2|] st2] eqn:H2;
      apply mkdir_if_absent_kept in H2 as [K2 F2].
    + cbn. split; [eapply kept_trans; eauto | intros; now rewrite F2, F1].
    + rewrite publicationFolderNumber_spelled.
      destruct (Copier.copyPages _ _ _ st2) as [r st3] eqn:H3.
      apply copyPages_frame in H3 as (K3 & _ & F3). cbn [snd].
      split; [eapply kept_trans; [|exact K3]; eapply kept_trans; eauto|].
      intros path Hn. now rewrite F3, F2, F1.
Qed.


(** X2. The loop of the copier never removes a file or a directory,
    whatever the publications and however it ends. *)
Theorem monitor_keeps (inbound : list Magazine) :
  forall st : Copier.State,
    Keeps.kept (Copier.fs st)
      (Copier.fs (snd (Copier.monitor workingDirectory inbound st))).
Proof.
  induction inbound as [|magazine inbound IH]; intros st; cbn [Copier.monitor].
  - apply kept_refl.
  - pose proof (renameFiles_kept magazine st) as K.
    destruct (Copier.renameFiles workingDirectory magazine st) as [[err|] st1].
    + exact K.
    + eapply kept_trans; [exact K|]. apply (IH (Copier.print _ st1)).
Qed.

End CopierKeeps.

(** ** The copies are the sources, byte for byte *)

Lemma Open_path (fs : os.FileSystem) (path file : string) :
  os.Open fs path = inl file -> file = path.
Proof.
  unfold os.Open. destruct (bool_decide _); [discriminate|].
  destruct (os.exists_ _ _); [|discriminate]. now intros [= <-].
Qed.

Lemma reader_whole (fs : os.FileSystem) (file : string) :
  failure (os.reader fs file) = None ->
  exists data, os.files fs !! file = Some data
               /\ concat (chunks (os.reader fs file)) = data.
Proof.
  unfold os.reader. destruct (os.files fs !! file) as [data|]; [|discriminate].
  destruct (bool_decide _); [discriminate|]. intros _. exists data.
  split; [reflexivity|]. cbn. apply app_nil_r.
Qed.

Lemma copyPage_content (folder source : string) (page : MagazinePage)
    (st st' : Copier.State) :
  Copier.copyPage folder source page st = (None, st') ->
  Keeps.source source page <> Design.destination folder page ->
  is_Some (os.files (Copier.fs st) !! Keeps.source source page)
  /\ os.files (Copier.fs st') !! Design.destination folder page
     = os.files (Copier.fs st) !! Keeps.source source page.
Proof.
  unfold Copier.copyPage. fold (Design.destination folder page).
  fold (Keeps.source source page).
  destruct (os.Open _ _) as [src|err] eqn:Ho; [|discriminate].
  apply Open_path in Ho as ->. unfold os.Create.
  destruct (bool_decide _); [discriminate|].
  destruct (bool_decide _); [discriminate|].
  unfold os.Copy.
  destruct (failure _) eqn:Hf; [discriminate|].
  apply reader_whole in Hf as (data & Hd & Hc). intros [= <-] Hne.
  cbn in Hd. rewrite lookup_insert_ne in Hd by congruence.
  cbn. rewrite lookup_insert_eq, Hc, Hd. split; [eauto | reflexivity].
Qed.

Lemma copyPages_content (folder source : string) (pages : list MagazinePage) :
  forall st st' : Copier.State,
    Copier.copyPages folder source pages st = (None, st') ->
    NoDup (map (Design.destination folder) pages) ->
    (forall p q, p ∈ pages -> q ∈ pages ->
                 Keeps.source source p <> Design.destination folder q) ->
    forall page, page ∈ pages ->
      os.files (Copier.fs st') !! Design.destination folder page
      = os.files (Copier.fs st) !! Keeps.source source page.
Proof.
  induction pages as [|p ps IH]; intros st st' Hc Hnd Hdis page Hin;
    [now apply elem_of_nil in Hin|].
  cbn [Copier.copyPages] in Hc.
  destruct (Copier.copyPage folder source p st) as [[err|] st1] eqn:Hp;
    [discriminate|].
  cbn [map] in Hnd. apply NoDup_cons in Hnd as [Hfresh Hnd].
  pose proof (copyPages_frame _ _ _ _ _ _ Hc) as (_ & _ & Hframe).
  pose proof (copyPage_frame _ _ _ _ _ _ Hp) as (_ & _ & Hframe1).
  apply elem_of_cons in Hin as [-> | Hin].
  - rewrite Hframe by exact Hfresh.
    apply copyPage_content; [exact Hp|]. apply Hdis; left.
  - rewrite (IH st1 st' Hc Hnd); [| |exact Hin].
    + apply Hframe1. apply Hdis; [now right | left].
    + intros a b Ha Hb. apply Hdis; now right.
Qed.

(** X3. When [renameFiles] succeeds, the destinations of the pages are
    pairwise distinct and no source file is itself a destination, every
    destination holds the bytes its source held before the call. *)
Theorem renameFiles_copies_bytes (workingDirectory : string)
    (magazine : Magazine) (st st' : Copier.State) :
  Copier.renameFiles workingDirectory magazine st = (None, st') ->
  NoDup (map (Design.destination
                (Design.issue_folder workingDirectory (Metadata magazine)))
           (Pages magazine)) ->
  (forall p q, p ∈ Pages magazine -> q ∈ Pages magazine ->
     Keeps.source (Folder magazine) p
     <> Design.destination
          (Design.issue_folder workingDirectory (Metadata magazine)) q) ->
  forall page, page ∈ Pages magazine ->
    os.files (Copier.fs st')
      !! Design.destination
           (Design.issue_folder workingDirectory (Metadata magazine)) page
    = os.files (Copier.fs st) !! Keeps.source (Folder magazine) page.
Proof.
  unfold Copier.renameFiles.
  destruct (Copier.mkdir_if_absent _ _) as [[e1|] st1] eqn:H1; [discriminate|].
  destruct (Copier.mkdir_if_absent _ st1) as [[e2|] st2] eqn:H2; [discriminate|].
  apply mkdir_if_absent_kept in H1 as [_ F1].
  apply mkdir_if_absent_kept in H2 as [_ F2]. cbn in F1.
  rewrite publicationFolderNumber_spelled.
  intros Hc Hnd Hdis page Hin.
  rewrite (copyPages_content _ _ _ _ _ Hc Hnd Hdis page Hin).
  now rewrite F2, F1.
Qed.

Lemma renameFiles_copies_bytes_witness :
  os.files
    (Copier.fs (snd (Copier.renameFiles "/out" Scenario.tilt Scenario.start)))
    !! Design.destination
         (Design.issue_folder "/out" (Metadata Scenario.tilt)) Scenario.p2
  = os.files (Copier.fs Scenario.start)
      !! Keeps.source (Folder Scenario.tilt) Scenario.p2.
Proof.
  apply (renameFiles_copies_bytes "/out" Scenario.tilt Scenario.start).
  - vm_compute. reflexivity.
  - vm_compute. repeat constructor; set_solver.
  - intros p q Hp Hq. vm_compute in Hp, Hq.
    set_unfold. destruct Hp as [->|[->|[->|[]]]], Hq as [->|[->|[->|[]]]];
      vm_compute; discriminate.
  - vm_compute. set_solver.
Defined.

(** ** Running a publication twice *)

Lemma exists_kept (a b : os.FileSystem) (path : string) :
  Keeps.kept a b -> os.exists_ a path = true -> os.exists_ b path = true.
Proof.
  intros (Hd & Hf & _ & _). unfold os.exists_.
  rewrite !orb_true_iff, !bool_decide_eq_true, <- !elem_of_dom. set_solver.
Qed.

Lemma mkdir_if_absent_exists (path : string) (st st' : Copier.State) :
  Copier.mkdir_if_absent path st = (None, st') ->
  os.exists_ (Copier.fs st') path = true.
Proof.
  unfold Copier.mkdir_if_absent, os.Stat, os.Mkdir.
  destruct (os.exists_ (Copier.fs st) path) eqn:He; cbn.
  - now intros [= <-].
  - destruct (bool_decide _); [discriminate|]. intros [= <-].
    unfold os.exists_. cbn. rewrite orb_true_iff, !bool_decide_eq_true.
    right. set_solver.
Qed.

Lemma mkdir_if_absent_present (path : string) (st : Copier.State) :
  os.exists_ (Copier.fs st) path = true ->
  Copier.mkdir_if_absent path st = (None, st).
Proof. unfold Copier.mkdir_if_absent, os.Stat. now intros ->. Qed.

Lemma copyPage_grown (folder source : string) (page : MagazinePage)
    (a a' b : Copier.State) :
  Copier.copyPage folder source page a = (None, a') ->
  Keeps.grown (Copier.fs a) (Copier.fs b) ->
  exists b', Copier.copyPage folder source page b = (None, b')
             /\ Keeps.grown (Copier.fs a') (Copier.fs b').
Proof.
  intros Ha (Hd & Hl & Hu & Hf). revert Ha. unfold Copier.copyPage.
  set (src := filepath.Join source (File page)).
  set (dst := filepath.Join folder _).
  unfold os.Open, os.Create, os.Copy. rewrite <- Hl, <- Hd.
  destruct (bool_decide (src ∈ os.locked (Copier.fs a))); [discriminate|].
  destruct (os.exists_ (Copier.fs a) src) eqn:He; [|discriminate].
  assert (He' : os.exists_ (Copier.fs b) src = true).
  { revert He. unfold os.exists_.
    rewrite !orb_true_iff, !bool_decide_eq_true, <- !elem_of_dom, Hd.
    set_solver. }
  rewrite He'.
  destruct (bool_decide (dst ∈ os.locked (Copier.fs a))); [discriminate|].
  destruct (bool_decide (dst ∈ os.dirs (Copier.fs a))); [discriminate|].
  destruct (failure (os.reader (os.with_files (Copier.fs a) _) src)) eqn:Hr;
    [discriminate|].
  intros [= <-].
  assert (Hr' : failure (os.reader
                  (os.with_files (Copier.fs b)
                     (<[dst:=[]]> (os.files (Copier.fs b)))) src) = None).
  { revert Hr. unfold os.reader. cbn. rewrite <- Hu.
    destruct (decide (dst = src)) as [->|Hne].
    - rewrite !lookup_insert_eq. auto.
    - rewrite !lookup_insert_ne by exact Hne.
      destruct (os.files (Copier.fs a) !! src) as [d|] eqn:Hs; [|discriminate].
      assert (Hin : src ∈ dom (os.files (Copier.fs b)))
        by (apply Hf, elem_of_dom; eauto).
      apply elem_of_dom in Hin as [d' ->].
      now destruct (bool_decide _). }
  rewrite Hr'. eexists. split; [reflexivity|]. cbn.
  repeat split; try assumption. cbn [os.files os.with_files].
  rewrite !dom_insert_L. set_solver.
Qed.

Lemma copyPages_grown (folder source : string) (pages : list MagazinePage) :
  forall a a' b : Copier.State,
    Copier.copyPages folder source pages a = (None, a') ->
    Keeps.grown (Copier.fs a) (Copier.fs b) ->
    exists b', Copier.copyPages folder source pages b = (None, b')
               /\ Keeps.grown (Copier.fs a') (Copier.fs b').
Proof.
  induction pages as [|page pages IH]; intros a a' b; cbn [Copier.copyPages].
  - intros [= <-] Hg. eauto.
  - destruct (Copier.copyPage folder source page a) as [[err|] a1] eqn:Hp;
      [discriminate|].
    intros Hc Hg. destruct (copyPage_grown _ _ _ _ _ _ Hp Hg) as (b1 & -> & Hg1).
    eapply IH; eauto.
Qed.

(** X4. A publication that was copied without error can be copied again:
    the second call succeeds too (the folders that exist are not an
    error, the files are rewritten), and it adds no file and no
    directory. *)
Theorem renameFiles_again (workingDirectory : string) (magazine : Magazine)
    (st st1 : Copier.State) :
  Copier.renameFiles workingDirectory magazine st = (None, st1) ->
  exists st2 : Copier.State,
    Copier.renameFiles workingDirectory magazine st1 = (None, st2)
    /\ os.dirs (Copier.fs st2) = os.dirs (Copier.fs st1)
    /\ dom (os.files (Copier.fs st2)) = dom (os.files (Copier.fs st1)).
Proof.
  unfold Copier.renameFiles.
  set (folder1 := Copier.publicationFolder workingDirectory (Metadata magazine)).
  set (folder2 :=
         Copier.publicationFolderNumber workingDirectory (Metadata magazine)).
  set (line := "Publication " +:+ _).
  destruct (Copier.mkdir_if_absent folder1 (Copier.print line st))
    as [[e1|] sa] eqn:H1; [discriminate|].
  destruct (Copier.mkdir_if_absent folder2 sa) as [[e2|] sb] eqn:H2;
    [discriminate|].
  intros Hc.
  pose proof (mkdir_if_absent_exists _ _ _ H1) as E1.
  pose proof (mkdir_if_absent_exists _ _ _ H2) as E2.
  pose proof (mkdir_if_absent_kept _ _ _ _ H2) as [K2 _].
  pose proof (copyPages_frame _ _ _ _ _ _ Hc) as (K3 & D3 & _).
  pose proof (copyPages_done _ _ _ _ _ Hc) as [Hdom _].
  assert (E1' : os.exists_ (Copier.fs (Copier.print line st1)) folder1 = true)
    by (eapply exists_kept; [|exact E1]; eapply kept_trans; eauto).
  assert (E2' : os.exists_ (Copier.fs (Copier.print line st1)) folder2 = true)
    by (eapply exists_kept; [|exact E2]; exact K3).
  rewrite (mkdir_if_absent_present _ _ E1'), (mkdir_if_absent_present _ _ E2').
  destruct (copyPages_grown _ _ _ _ _ (Copier.print line st1) Hc)
    as (st2 & Hc2 & (G1 & _ & _ & G4)).
  { destruct K3 as (_ & Kf & Kl & Ku). repeat split; auto. }
  exists st2. split; [exact Hc2|].
  pose proof (copyPages_frame _ _ _ _ _ _ Hc2) as (_ & D2 & _).
  pose proof (copyPages_done _ _ _ _ _ Hc2) as [Hdom2 _].
  split; [exact D2|]. rewrite Hdom2. cbn. rewrite Hdom. set_solver.
Qed.

Lemma renameFiles_again_witness :
  exists st2 : Copier.State,
    Copier.renameFiles "/out" Scenario.tilt
      (snd (Copier.renameFiles "/out" Scenario.tilt Scenario.start))
    = (None, st2)
    /\ os.dirs (Copier.fs st2)
       = os.dirs
           (Copier.fs (snd (Copier.renameFiles "/out" Scenario.tilt
                              Scenario.start)))
    /\ dom (os.files (Copier.fs st2))
       = dom (os.files
                (Copier.fs (snd (Copier.renameFiles "/out" Scenario.tilt
                                   Scenario.start)))).
Proof.
  apply (renameFiles_again "/out" Scenario.tilt Scenario.start).
  vm_compute. reflexivity.
Defined.

(** ** The names of the copies *)

Lemma fmt3_table :
  forallb
    (fun k =>
       let n := Z.of_nat k in
       Nat.eqb (String.length (GoString.fmt_0d 3 n)) 3
       && match Unmarshal.uint_of 0
                  (list_ascii_of_string (GoString.fmt_0d 3 n)) with
          | Some m => m =? n
          | None => false
          end)
    (seq 0 256) = true.
Proof. vm_compute. reflexivity. Qed.

Lemma fmt3_uint8 (n : Z) :
  Keeps.uint8 n ->
  String.length (GoString.fmt_0d 3 n) = 3%nat
  /\ Unmarshal.uint_of 0 (list_ascii_of_string (GoString.fmt_0d 3 n)) = Some n.
Proof.
  intros [Hlo Hhi]. pose proof fmt3_table as H.
  rewrite forallb_forall in H. specialize (H (Z.to_nat n)).
  rewrite Z2Nat.id in H by lia.
  assert (Hin : In (Z.to_nat n) (seq 0 256)) by (apply in_seq; lia).
  apply H in Hin. apply andb_prop in Hin as [Hl Hu].
  apply Nat.eqb_eq in Hl. split; [exact Hl|].
  destruct (Unmarshal.uint_of 0 _) as [m|]; [|discriminate].
  apply Z.eqb_eq in Hu. now subst.
Qed.

Lemma append_same_length (a b x y : string) :
  String.length a = String.length b -> a +:+ x = b +:+ y -> a = b.
Proof.
  revert b. induction a as [|c a IH]; intros [|d b] Hl He;
    try discriminate; [reflexivity|].
  rewrite !append_cons in He. injection He as -> He.
  f_equal. apply IH; [now injection Hl | exact He].
Qed.

Lemma pageFileName_number (p q : MagazinePage) :
  Keeps.uint8 (PageNumber p) -> Keeps.uint8 (PageNumber q) ->
  Keeps.pageFileName p = Keeps.pageFileName q -> PageNumber p = PageNumber q.
Proof.
  intros Hp Hq He.
  destruct (fmt3_uint8 _ Hp) as [Lp Up], (fmt3_uint8 _ Hq) as [Lq Uq].
  apply append_same_length in He; [|congruence].
  rewrite He in Up. congruence.
Qed.

Lemma pageFileName_simple (page : MagazinePage) :
  filepath.simple (Keeps.pageFileName page) = true.
Proof.
  unfold Keeps.pageFileName. apply simple_of_head.
  - rewrite no_slash_app, ToLower_no_slash.
    rewrite (proj1 (fmt_0d_plain 3 (PageNumber page))).
    unfold filepath.Ext. now rewrite ext_from_no_slash.
  - apply plain_head_app, fmt_0d_plain.
Qed.

(** X5. The name of a copy starts with exactly three digits when the
    page number fits its [uint8], and in a folder that is a rooted path
    of plain names two pages with different numbers never get the same
    destination: they cannot overwrite each other. *)
Theorem destinations_differ (folder : string) (p q : MagazinePage) :
  filepath.plain_root folder ->
  Keeps.uint8 (PageNumber p) -> Keeps.uint8 (PageNumber q) ->
  PageNumber p <> PageNumber q ->
  String.length (GoString.fmt_0d 3 (PageNumber p)) = 3%nat
  /\ Design.destination folder p <> Design.destination folder q.
Proof.
  intros Hf Hp Hq Hne. split; [apply (fmt3_uint8 _ Hp)|].
  unfold Design.destination.
  fold (Keeps.pageFileName p). fold (Keeps.pageFileName q).
  destruct (Join_plain folder _ Hf (pageFileName_simple p)) as [-> _].
  destruct (Join_plain folder _ Hf (pageFileName_simple q)) as [-> _].
  intros He. apply String.app_inj in He. apply String.app_inj in He.
  apply Hne, pageFileName_number; assumption.
Qed.

Lemma destinations_differ_witness :
  Design.destination "/out/test-Tilt" Scenario.p1
  <> Design.destination "/out/test-Tilt" Scenario.p2.
Proof.
  apply (destinations_differ "/out/test-Tilt" Scenario.p1 Scenario.p2).
  - exists ["out"; "test-Tilt"]. repeat split; [discriminate|].
    repeat constructor.
  - unfold Keeps.uint8. cbn. lia.
  - unfold Keeps.uint8. cbn. lia.
  - discriminate.
Defined.

(** ** How the loop of the copier ends *)


(** ** Month names, again *)

(** X7. [toNames] works number by number: the names of a list put after
    another are the names of the first followed by those of the second;
    there are never more names than numbers; every name is one of the
    twelve of the table. The copy of the function in the single-file
    program, [monthNumbersToNames], gives the same names. *)
Theorem toNames_algebra (a b : list Z) :
  Copier.toNames (a ++ b) = Copier.toNames a ++ Copier.toNames b
  /\ (List.length (Copier.toNames a) <= List.length a)%nat
  /\ Forall (fun name => In name Copier.months) (Copier.toNames a)
  /\ Legacy.monthNumbersToNames a = Copier.toNames a.
Proof.
  assert (Hcopy : Legacy.monthNumbersToNames a = Copier.toNames a)
    by reflexivity.
  unfold Copier.toNames in *. rewrite !toNames_from in *. cbn [app] in *.
  split; [now rewrite List.filter_app, map_app|].
  split; [rewrite length_map; apply List.filter_length_le|].
  split; [|exact Hcopy].
  apply Forall_map, Forall_forall. intros n Hn%list_elem_of_In.
  apply List.filter_In in Hn as [_ Hr].
  apply andb_prop in Hr as [H1 H2]. apply Z.leb_le in H1, H2.
  unfold Copier.month_at. apply nth_In.
  change (List.length Copier.months) with 12%nat. lia.
Qed.

(** ** The analyzer only adds to its trail *)

Section AnalyzerKeeps.

Variable fs : os.FileSystem.
Variable backend : AiProxy.Backend.

Import Analyzer.
Local Open Scope analyzer_scope.

Lemma state_same (st : State) :
  st = {| audits := audits st ++ []; requests := requests st ++ [];
          magazines := magazines st ++ []; closed := closed st |}.
Proof. destruct st. cbn. now rewrite !app_nil_r. Qed.

Lemma appending_ret {A : Type} (a : A) : Keeps.appending (ret a).
Proof. intros st. exists [], [], []. apply state_same. Qed.

Lemma appending_panic {A : Type} (msg : string) :
  Keeps.appending (@panic A msg).
Proof. intros st. exists [], [], []. apply state_same. Qed.

Lemma appending_Log (severity : Severity) (text : string) :
  Keeps.appending (Log severity text).
Proof.
  intros st. exists [{| AuditSeverity := severity; Text := text |}], [], [].
  cbn. now rewrite !app_nil_r.
Qed.

Lemma appending_send (m : Magazine) : Keeps.appending (send m).
Proof. intros st. exists [], [], [m]. cbn. now rewrite !app_nil_r. Qed.

Lemma appending_bind {A B : Type} (c : M A) (k : A -> M B) :
  Keeps.appending c -> (forall a, Keeps.appending (k a)) ->
  Keeps.appending (bind c k).
Proof.
  intros Hc Hk st. unfold bind. destruct (Hc st) as (e1 & s1 & m1 & H1).
  destruct (c st) as [[a|msg] st1]; cbn in H1; [|eauto].
  destruct (Hk a st1) as (e2 & s2 & m2 & H2). rewrite H2, H1. cbn.
  exists (e1 ++ e2), (s1 ++ s2), (m1 ++ m2). now rewrite !app_assoc.
Qed.

Lemma appending_SendRequestWithImage (prompt : string) (reader : Reader) :
  Keeps.appending (SendRequestWithImage backend prompt reader).
Proof.
  intros st. unfold SendRequestWithImage.
  destruct (AiProxy.SendRequestWithImage _ _ _) as [sent res].
  exists [], sent, []. cbn. now rewrite !app_nil_r.
Qed.

Lemma appending_at_index {A : Type} (s : list A) (i : Z) :
  Keeps.appending (at_index s i).
Proof.
  unfold at_index. case_match; [apply appending_ret | apply appending_panic].
Qed.

Create HintDb appending.
#[local] Hint Resolve appending_ret appending_panic appending_Log
  appending_send appending_SendRequestWithImage appending_at_index
  : appending.

Ltac appending_step :=
  first [ apply appending_bind; [|intros ?]
        | solve [auto with appending]
        | case_match ].

Lemma appending_analyzePages (magazinePages : MagazinePages) :
  Keeps.appending (analyzePages fs backend magazinePages).
Proof. unfold analyzePages. repeat appending_step. Qed.

Lemma appending_scanTableOfContent (folder : string)
    (pages : list MagazinePage) :
  forall t, Keeps.appending (scanTableOfContent fs backend folder pages t).
Proof.
  induction pages as [|page pages IH]; intros t; cbn [scanTableOfContent];
    repeat appending_step; apply IH.
Qed.

Lemma appending_scanPageNumbers (magazinePages : MagazinePages)
    (pageNumbers : list Z) :
  forall games,
    Keeps.appending
      (scanPageNumbers fs backend magazinePages pageNumbers games).
Proof.
  induction pageNumbers as [|n pageNumbers IH]; intros games;
    cbn [scanPageNumbers]; repeat appending_step; apply IH.
Qed.

Lemma appending_scanEntries (magazinePages : MagazinePages)
    (entries : list TableContentEntry) :
  forall games,
    Keeps.appending (scanEntries fs backend magazinePages entries games).
Proof.
  induction entries as [|entry entries IH]; intros games;
    cbn [scanEntries]; [apply appending_ret|].
  apply appending_bind; [apply appending_scanPageNumbers|].
  intros [games'|]; [apply IH | apply appending_ret].
Qed.

Lemma appending_analyzeTableOfContent (magazinePages : MagazinePages) :
  Keeps.appending (analyzeTableOfContent fs backend magazinePages).
Proof.
  unfold analyzeTableOfContent. case_match; [apply appending_Log|].
  apply appending_bind; [apply appending_scanTableOfContent|].
  intros e. case_match; [|apply appending_ret].
  apply appending_bind; [apply appending_scanEntries|].
  intros; apply appending_ret.
Qed.

Lemma appending_receive (inbound : list MagazinePages) :
  Keeps.appending (receive fs backend inbound).
Proof.
  induction inbound as [|magazinePages inbound IH]; cbn [receive];
    [apply appending_ret|].
  apply appending_bind; [apply appending_analyzePages|]. intros _.
  apply appending_bind; [apply appending_analyzeTableOfContent|].
  intros _. exact IH.
Qed.


End AnalyzerKeeps.

(** ** The cover analysis, case by case *)

Section CoverCases.

Variable fs : os.FileSystem.
Variable backend : AiProxy.Backend.

Import Analyzer.
Local Open Scope analyzer_scope.

Lemma analyzePages_returns (magazinePages : MagazinePages) (st : State) :
  fst (analyzePages fs backend magazinePages st) = Returned tt.
Proof.
  unfold analyzePages, bind, Log, send, ret, SendRequestWithImage.
  repeat case_match; simplify_eq; reflexivity.
Qed.

(** X10. [analyzePages] never panics, and it questions the backend at
    most once, with the prompt of the cover. *)
Theorem analyzePages_one_request (magazinePages : MagazinePages) (st : State) :
  exists sent : list (string * string),
    fst (analyzePages fs backend magazinePages st) = Returned tt
    /\ requests (snd (analyzePages fs backend magazinePages st))
       = requests st ++ sent
    /\ (List.length sent <= 1)%nat
    /\ Forall (fun r => fst r = CoverPageAssistantPrompt) sent.
Proof.
  unfold analyzePages, bind, Log, send, ret, SendRequestWithImage,
    AiProxy.SendRequestWithImage.
  repeat case_match; simplify_eq; cbn;
    first [ exists []; rewrite app_nil_r; repeat split; auto; constructor
          | eexists [_]; repeat split; auto; repeat constructor ].
Qed.


(** X11. A page set never gets lost without a word: either it has no
    page (one Information event), or a magazine is sent (two Information
    events), or nothing is sent and the events added are an Information
    and an Error, followed by a Debug event when the answer could not be
    decoded. *)
Theorem analyzePages_audited (magazinePages : MagazinePages) (st : State) :
  exists events : list Audit,
    audits (snd (analyzePages fs backend magazinePages st))
    = audits st ++ events
    /\ ((PagesOf magazinePages = []
         /\ magazines (snd (analyzePages fs backend magazinePages st))
            = magazines st
         /\ map AuditSeverity events = [Information])
        \/ ((exists metadata,
               magazines (snd (analyzePages fs backend magazinePages st))
               = magazines st
                   ++ [ {| Metadata := metadata;
                           Pages := PagesOf magazinePages;
                           Folder := PagesFolder magazinePages |} ])
            /\ map AuditSeverity events = [Information; Information])
        \/ (magazines (snd (analyzePages fs backend magazinePages st))
            = magazines st
            /\ (map AuditSeverity events = [Information; Error]
                \/ map AuditSeverity events = [Information; Error; Debug]))).
Proof.
  unfold analyzePages, bind, Log, send, ret, SendRequestWithImage.
  repeat case_match; simplify_eq; cbn;
    eexists; (split; [rewrite <- ?app_assoc; reflexivity|]); cbn; eauto 10.
Qed.

(** X12. When the cover can be read and the answer, neither empty nor
    Unknown, decodes without error, [analyzePages] sends exactly one
    magazine: the decoded metadata with the pages and the folder of the
    page set. *)
Theorem analyzePages_sends_decoded (magazinePages : MagazinePages)
    (cover : MagazinePage) (others : list MagazinePage) (file : string)
    (sent : list (string * string)) (response : string)
    (metadata : MagazineMetadata) (st : State) :
  PagesOf magazinePages = cover :: others ->
  os.Stat fs (filepath.Join (PagesFolder magazinePages) (File cover)) = None ->
  os.Open fs (filepath.Join (PagesFolder magazinePages) (File cover))
  = inl file ->
  AiProxy.SendRequestWithImage backend CoverPageAssistantPrompt
    (os.reader fs file) = (sent, inl response) ->
  response <> "" -> response <> "Unknown" ->
  Unmarshal.MagazineMetadata_ response zero_metadata = (metadata, None) ->
  fst (analyzePages fs backend magazinePages st) = Returned tt
  /\ magazines (snd (analyzePages fs backend magazinePages st))
     = magazines st
         ++ [ {| Metadata := metadata; Pages := PagesOf magazinePages;
                 Folder := PagesFolder magazinePages |} ]
  /\ requests (snd (analyzePages fs backend magazinePages st))
     = requests st ++ sent.
Proof.
  intros Hpages Hstat Hopen Hsend Hne Hunk Hdec.
  unfold analyzePages, bind, Log, send, SendRequestWithImage.
  rewrite Hpages, Hstat, Hopen, Hsend.
  apply String.eqb_neq in Hne, Hunk. rewrite Hne, Hunk, Hdec. cbn.
  now rewrite <- Hpages.
Qed.

End CoverCases.

Lemma analyzePages_sends_decoded_witness :
  Analyzer.magazines
    (snd (Analyzer.analyzePages Scenario.disk
            (Scenario.by_page Scenario.tilt_answer "" "") Scenario.A1
            Analyzer.initial))
  = [] ++ [ {| Metadata := Metadata Scenario.tilt;
               Pages := PagesOf Scenario.A1;
               Folder := PagesFolder Scenario.A1 |} ].
Proof.
  apply (analyzePages_sends_decoded Scenario.disk
           (Scenario.by_page Scenario.tilt_answer "" "") Scenario.A1
           Scenario.p1 [Scenario.p2; Scenario.p3] "/in/A1/p1.jpg"
           [(Analyzer.CoverPageAssistantPrompt, Scenario.url "cover!")]
           Scenario.tilt_answer (Metadata Scenario.tilt) Analyzer.initial);
    try discriminate; vm_compute; reflexivity.
Defined.

(** ** The requests of the content-index derivation *)

Section TableRequests.

Variable fs : os.FileSystem.
Variable backend : AiProxy.Backend.

Import Analyzer.
Local Open Scope analyzer_scope.

Lemma sent_for_page (folder : string) (page : MagazinePage) (file : string)
    (sent : list (string * string)) (res : string + string) :
  os.Open fs (filepath.Join folder (File page)) = inl file ->
  AiProxy.SendRequestWithImage backend TableOfContentAssistantPrompt
    (os.reader fs file) = (sent, res) ->
  (sent = [] /\ exists err, res = inr err)
  \/ sent = [Design.request_for fs folder page].
Proof.
  intros ->%Open_path. unfold AiProxy.SendRequestWithImage, Design.request_for.
  destruct (AiProxy.image_url _) as [url|err]; intros [= <- <-]; eauto.
Qed.

(** X13. Whatever the files and the answers, the loop over the
    candidate pages questions the backend about a first part of the
    candidates, each once and in the order of the page set: a page is
    never skipped to reach a later one. *)
Theorem scan_requests_in_order (folder : string) (pages : list MagazinePage) :
  forall (t : TableContent) (st : State),
    exists k : nat,
      (k <= List.length pages)%nat
      /\ requests (snd (scanTableOfContent fs backend folder pages t st))
         = requests st
             ++ map (Design.request_for fs folder) (firstn k pages).
Proof.
  induction pages as [|page pages IH]; intros t st.
  - exists 0%nat. cbn. now rewrite app_nil_r.
  - cbn [scanTableOfContent].
    destruct (os.Stat _ _);
      [exists 0%nat; cbn; split; [lia | now rewrite app_nil_r]|].
    destruct (os.Open _ _) as [file|err] eqn:Hopen;
      [|exists 0%nat; cbn; split; [lia | now rewrite app_nil_r]].
    unfold bind at 1, SendRequestWithImage at 1.
    destruct (AiProxy.SendRequestWithImage _ _ _) as [sent res] eqn:Hsend.
    destruct (sent_for_page _ _ _ _ _ Hopen Hsend) as [[-> [err ->]] | ->].
    + exists 0%nat. cbn. split; [lia | now rewrite !app_nil_r].
    + destruct res as [response|err];
        [|exists 1%nat; cbn; split; [lia | reflexivity]].
      destruct (String.eqb response "");
        [exists 1%nat; cbn; split; [lia | reflexivity]|].
      destruct (Unmarshal.TableContent_ response t) as [t' [e|]].
      * unfold bind, Log. cbn [fst snd].
        match goal with
        | |- context [scanTableOfContent fs backend folder pages t' ?s] =>
            destruct (IH t' s) as (k & Hk & ->)
        end.
        exists (S k). cbn. split; [lia | now rewrite <- app_assoc].
      * destruct (_ || _); [|exists 1%nat; cbn; split; [lia | reflexivity]].
        match goal with
        | |- context [scanTableOfContent fs backend folder pages t' ?s] =>
            destruct (IH t' s) as (k & Hk & ->)
        end.
        exists (S k). cbn. split; [lia | now rewrite <- app_assoc].
Qed.

End TableRequests.

(** ** Resolving the pages of the entries *)

Lemma index_from_found {A : Type} (f : A -> bool) (pre : list A) (x : A)
    (post : list A) :
  Forall (fun y => f y = false) pre -> f x = true ->
  forall i, Analyzer.index_from i (pre ++ x :: post) f
            = i + Z.of_nat (List.length pre).
Proof.
  induction 1 as [|y pre Hy _ IH]; intros Hx i; cbn.
  - rewrite Hx. lia.
  - rewrite Hy, IH by exact Hx. lia.
Qed.

Lemma index_from_range {A : Type} (f : A -> bool) (s : list A) :
  forall i, 0 <= i ->
    Analyzer.index_from i s f = -1
    \/ i <= Analyzer.index_from i s f < i + Z.of_nat (List.length s).
Proof.
  induction s as [|x s IH]; intros i Hi; cbn [Analyzer.index_from];
    [now left|].
  destruct (f x); [right; cbn; lia|].
  destruct (IH (i + 1)) as [H | H]; [lia | now left | right; cbn; lia].
Qed.

Lemma first_match {A : Type} (f : A -> bool) (s : list A) :
  existsb f s = true ->
  exists pre x post,
    s = pre ++ x :: post /\ Forall (fun y => f y = false) pre /\ f x = true.
Proof.
  induction s as [|y s IH]; [discriminate|]. cbn.
  destruct (f y) eqn:Hy.
  - intros _. exists [], y, s. repeat split; [constructor | exact Hy].
  - intros (pre & x & post & -> & Hpre & Hx)%IH.
    exists (y :: pre), x, post. repeat split; [now constructor | exact Hx].
Qed.

Lemma at_index_found (pre post : list MagazinePage) (page : MagazinePage)
    (n : Z) (st : Analyzer.State) :
  Forall (fun q => (PageNumber q =? n) = false) pre ->
  PageNumber page = n ->
  Analyzer.at_index (pre ++ page :: post)
    (Analyzer.IndexFunc (pre ++ page :: post) (fun q => PageNumber q =? n)) st
  = (Analyzer.Returned page, st).
Proof.
  intros Hpre Hn. unfold Analyzer.IndexFunc.
  rewrite index_from_found; [|exact Hpre | now apply Z.eqb_eq].
  rewrite Z.add_0_l. unfold Analyzer.at_index.
  destruct (Z.leb_spec 0 (Z.of_nat (List.length pre))); [|lia].
  rewrite Nat2Z.id, nth_error_app2, Nat.sub_diag by lia. reflexivity.
Qed.

(** X14. A page number is resolved to the first page of the set that
    carries it: pages before it with other numbers are passed over, and
    a later page with the same number is never reached. *)
Theorem resolution_takes_first (pre post : list MagazinePage)
    (page : MagazinePage) (n : Z) (st : Analyzer.State) :
  Forall (fun q => (PageNumber q =? n) = false) pre ->
  PageNumber page = n ->
  Analyzer.IndexFunc (pre ++ page :: post) (fun q => PageNumber q =? n)
  = Z.of_nat (List.length pre)
  /\ Analyzer.at_index (pre ++ page :: post)
       (Analyzer.IndexFunc (pre ++ page :: post) (fun q => PageNumber q =? n))
       st
     = (Analyzer.Returned page, st).
Proof.
  intros Hpre Hn.
  assert (Hi : Analyzer.IndexFunc (pre ++ page :: post)
                 (fun q => PageNumber q =? n) = Z.of_nat (List.length pre)).
  { unfold Analyzer.IndexFunc. rewrite index_from_found; [lia | exact Hpre |].
    now apply Z.eqb_eq. }
  split; [exact Hi|]. rewrite Hi. unfold Analyzer.at_index.
  destruct (Z.leb_spec 0 (Z.of_nat (List.length pre))); [|lia].
  rewrite Nat2Z.id, nth_error_app2, Nat.sub_diag by lia. reflexivity.
Qed.


Lemma resolution_takes_first_witness :
  Analyzer.at_index (PagesOf Scenario.A1)
    (Analyzer.IndexFunc (PagesOf Scenario.A1) (fun q => PageNumber q =? 2))
    Analyzer.initial
  = (Analyzer.Returned Scenario.p2, Analyzer.initial).
Proof.
  apply (resolution_takes_first [Scenario.p1] [Scenario.p3] Scenario.p2 2
           Analyzer.initial).
  - repeat constructor.
  - reflexivity.
Defined.

Section Crashes.

Variable fs : os.FileSystem.
Variable backend : AiProxy.Backend.

Import Analyzer.
Local Open Scope analyzer_scope.

Lemma returning_ret {A : Type} (a : A) : Keeps.returning (ret a).
Proof. intros st. now exists a. Qed.

Lemma returning_Log (severity : Severity) (text : string) :
  Keeps.returning (Log severity text).
Proof. intros st. now exists tt. Qed.

Lemma returning_SendRequestWithImage (prompt : string) (reader : Reader) :
  Keeps.returning (SendRequestWithImage backend prompt reader).
Proof.
  intros st. unfold SendRequestWithImage.
  destruct (AiProxy.SendRequestWithImage _ _ _) as [sent res]. now exists res.
Qed.

Lemma returning_bind {A B : Type} (c : M A) (k : A -> M B) :
  Keeps.returning c -> (forall a, Keeps.returning (k a)) ->
  Keeps.returning (bind c k).
Proof.
  intros Hc Hk st. unfold bind. destruct (Hc st) as [a Ha].
  destruct (c st) as [[a'|msg] st1]; cbn in Ha; [|discriminate]. apply Hk.
Qed.

Lemma returning_at_index (pages : list MagazinePage) (n : Z) :
  existsb (fun p => PageNumber p =? n) pages = true ->
  Keeps.returning
    (at_index pages (IndexFunc pages (fun p => PageNumber p =? n))).
Proof.
  intros (pre & page & post & -> & Hpre & Hn)%first_match st.
  apply Z.eqb_eq in Hn.
  rewrite (at_index_found pre post page n st Hpre Hn).
  now exists page.
Qed.

Create HintDb returning.
#[local] Hint Resolve returning_ret returning_Log
  returning_SendRequestWithImage : returning.

Ltac returning_step :=
  first [ apply returning_bind; [|intros ?]
        | solve [auto with returning]
        | case_match ].

Lemma returning_scanPageNumbers (magazinePages : MagazinePages)
    (pageNumbers : list Z) :
  forallb
    (fun n => existsb (fun p => PageNumber p =? n) (PagesOf magazinePages))
    pageNumbers = true ->
  forall games,
    Keeps.returning
      (scanPageNumbers fs backend magazinePages pageNumbers games).
Proof.
  induction pageNumbers as [|n pageNumbers IH]; cbn [forallb scanPageNumbers];
    [intros _ games; apply returning_ret|].
  intros [Hn Hrest]%andb_prop games.
  apply returning_bind; [now apply returning_at_index|]. intros page.
  repeat returning_step; now apply IH.
Qed.

Lemma returning_scanEntries (magazinePages : MagazinePages)
    (entries : list TableContentEntry) :
  Keeps.resolvable (PagesOf magazinePages) entries = true ->
  forall games,
    Keeps.returning (scanEntries fs backend magazinePages entries games).
Proof.
  unfold Keeps.resolvable.
  induction entries as [|entry entries IH]; cbn [forallb scanEntries];
    [intros _ games; apply returning_ret|].
  intros [He Hrest]%andb_prop games.
  apply returning_bind; [now apply returning_scanPageNumbers|].
  intros [games'|]; [now apply IH | apply returning_ret].
Qed.

(** X15. When every page number of every entry is the number of some
    page of the set, resolving the entries returns: the only panic of
    the resolution is a number that no page carries. *)
Theorem resolvable_entries_return (magazinePages : MagazinePages)
    (entries : list TableContentEntry) (games : list Game) (st : State) :
  Keeps.resolvable (PagesOf magazinePages) entries = true ->
  exists r, fst (scanEntries fs backend magazinePages entries games st)
            = Returned r.
Proof. intros H. now apply returning_scanEntries. Qed.

Lemma panics_ret {A : Type} (msg : string) (a : A) :
  Keeps.panics_with msg (ret a).
Proof. intros st. exact I. Qed.

Lemma panics_Log (msg : string) (severity : Severity) (text : string) :
  Keeps.panics_with msg (Log severity text).
Proof. intros st. exact I. Qed.

Lemma panics_send (msg : string) (m : Magazine) :
  Keeps.panics_with msg (send m).
Proof. intros st. exact I. Qed.

Lemma panics_SendRequestWithImage (msg prompt : string) (reader : Reader) :
  Keeps.panics_with msg (SendRequestWithImage backend prompt reader).
Proof.
  intros st. unfold SendRequestWithImage.
  now destruct (AiProxy.SendRequestWithImage _ _ _).
Qed.

Lemma panics_bind {A B : Type} (msg : string) (c : M A) (k : A -> M B) :
  Keeps.panics_with msg c -> (forall a, Keeps.panics_with msg (k a)) ->
  Keeps.panics_with msg (bind c k).
Proof.
  intros Hc Hk st. unfold bind. specialize (Hc st).
  destruct (c st) as [[a|m] st1]; cbn in *; [apply Hk | exact Hc].
Qed.

Lemma panics_at_index {A : Type} (s : list A) (f : A -> bool) :
  Keeps.panics_with "runtime error: index out of range [-1]"
    (at_index s (IndexFunc s f)).
Proof.
  intros st. unfold IndexFunc, at_index.
  destruct (index_from_range f s 0) as [-> | [Hlo Hhi]]; [lia|reflexivity|].
  destruct (Z.leb_spec 0 (index_from 0 s f)); [|lia].
  destruct (nth_error s _) eqn:Hn; [exact I|].
  apply nth_error_None in Hn. lia.
Qed.

Create HintDb panics.
#[local] Hint Resolve panics_ret panics_Log panics_send
  panics_SendRequestWithImage panics_at_index : panics.

Ltac panics_step :=
  first [ apply panics_bind; [|intros ?]
        | solve [auto with panics]
        | case_match ].

Lemma panics_scanTableOfContent (msg folder : string)
    (pages : list MagazinePage) :
  forall t, Keeps.panics_with msg (scanTableOfContent fs backend folder pages t).
Proof.
  induction pages as [|page pages IH]; intros t; cbn [scanTableOfContent];
    repeat panics_step; apply IH.
Qed.

Lemma panics_scanPageNumbers (magazinePages : MagazinePages)
    (pageNumbers : list Z) :
  forall games,
    Keeps.panics_with "runtime error: index out of range [-1]"
      (scanPageNumbers fs backend magazinePages pageNumbers games).
Proof.
  induction pageNumbers as [|n pageNumbers IH]; intros games;
    cbn [scanPageNumbers]; repeat panics_step; apply IH.
Qed.

Lemma panics_scanEntries (magazinePages : MagazinePages)
    (entries : list TableContentEntry) :
  forall games,
    Keeps.panics_with "runtime error: index out of range [-1]"
      (scanEntries fs backend magazinePages entries games).
Proof.
  induction entries as [|entry entries IH]; intros games;
    cbn [scanEntries]; [apply panics_ret|].
  apply panics_bind; [apply panics_scanPageNumbers|].
  intros [games'|]; [apply IH | apply panics_ret].
Qed.

Lemma panics_receive (inbound : list MagazinePages) :
  Keeps.panics_with "runtime error: index out of range [-1]"
    (receive fs backend inbound).
Proof.
  induction inbound as [|magazinePages inbound IH]; cbn [receive];
    [apply panics_ret|].
  apply panics_bind.
  { unfold analyzePages. repeat panics_step. }
  intros _. apply panics_bind; [|intros _; exact IH].
  unfold analyzeTableOfContent. case_match; [apply panics_Log|].
  apply panics_bind; [apply panics_scanTableOfContent|]. intros e.
  case_match; [|apply panics_ret].
  apply panics_bind; [apply panics_scanEntries | intros; apply panics_ret].
Qed.

(** X16. The loop of the analyzer has one way to crash: the index -1 of
    a page number that no page carries. Missing files, failures of the
    backend, empty or undecodable answers never end the service. *)
Theorem monitor_only_panic (inbound : list MagazinePages) (st : State) :
  match fst (monitor fs backend inbound st) with
  | Returned _ => True
  | Panicked msg => msg = "runtime error: index out of range [-1]"
  end.
Proof.
  revert st. change (Keeps.panics_with
                       "runtime error: index out of range [-1]"
                       (monitor fs backend inbound)).
  unfold monitor. apply panics_bind; [apply panics_receive|]. intros _.
  apply panics_bind; [intros st; exact I | intros _; apply panics_Log].
Qed.

End Crashes.

Lemma resolvable_entries_return_witness :
  exists r,
    fst (Analyzer.scanEntries Scenario.disk
           (Scenario.by_page Scenario.tilt_answer "" "") Scenario.A1
           [ {| EntryTitle := "Tests"; PageNumbers := [3; 2] |} ] []
           Analyzer.initial)
    = Analyzer.Returned r.
Proof.
  apply (resolvable_entries_return Scenario.disk
           (Scenario.by_page Scenario.tilt_answer "" "") Scenario.A1).
  vm_compute. reflexivity.
Defined.

(** ** The magazines keep the order of the page sets *)

Section Order.

Variable fs : os.FileSystem.
Variable backend : AiProxy.Backend.

Import Analyzer.
Local Open Scope analyzer_scope.

Lemma receive_in_order (inbound : list MagazinePages) :
  forall st : State,
    exists ms : list Magazine,
      magazines (snd (receive fs backend inbound st)) = magazines st ++ ms
      /\ sublist (map (fun m => (Folder m, Pages m)) ms)
           (map (fun p => (PagesFolder p, PagesOf p)) inbound).
Proof.
  induction inbound as [|magazinePages inbound IH]; intros st.
  - exists []. cbn. rewrite app_nil_r. split; [reflexivity | constructor].
  - cbn [receive]. unfold bind at 1.
    pose proof (analyzePages_returns fs backend magazinePages st) as Hret.
    pose proof (analyzePages_sends fs backend magazinePages st) as Hsent.
    destruct (analyzePages fs backend magazinePages st) as [o st1].
    cbn in Hret, Hsent. subst o. unfold bind at 1.
    pose proof (silent_analyzeTableOfContent fs backend magazinePages st1)
      as Hsilent.
    destruct (analyzeTableOfContent fs backend magazinePages st1)
      as [[[]|msg] st2]; cbn in Hsilent.
    + destruct (IH st2) as (ms & -> & Hsub). rewrite Hsilent.
      destruct Hsent as [-> | [metadata ->]].
      * exists ms. split; [reflexivity|]. cbn. now apply sublist_cons.
      * eexists (_ :: ms). split; [now rewrite <- app_assoc|].
        cbn. now apply sublist_skip.
    + cbn. rewrite Hsilent.
      destruct Hsent as [-> | [metadata ->]].
      * exists []. rewrite app_nil_r. split; [reflexivity|].
        apply sublist_nil_l.
      * eexists [_]. split; [reflexivity|]. cbn.
        apply sublist_skip, sublist_nil_l.
Qed.

(** X17. The magazines the analyzer sends are, in the order they are
    sent, the folders and page sequences of some of the page sets it
    received, in the order it received them: no page set gives two
    magazines, none is sent out of turn. *)
Theorem monitor_sends_in_order (inbound : list MagazinePages) (st : State) :
  exists ms : list Magazine,
    magazines (snd (monitor fs backend inbound st)) = magazines st ++ ms
    /\ sublist (map (fun m => (Folder m, Pages m)) ms)
         (map (fun p => (PagesFolder p, PagesOf p)) inbound).
Proof.
  destruct (receive_in_order inbound st) as (ms & Hm & Hsub).
  exists ms. split; [|exact Hsub]. unfold monitor, bind.
  now destruct (receive fs backend inbound st) as [[[]|msg] st1].
Qed.

End Order.

(** ** Candidate pages that all answer "no summary" *)

Section NoSummary.

Variable fs : os.FileSystem.
Variable backend : AiProxy.Backend.

Import Analyzer.
Local Open Scope analyzer_scope.

Lemma same_answer_exhausts (folder answer : string) (t0 : TableContent)
    (pages : list MagazinePage) :
  Design.complete answer = true ->
  Unmarshal.TableContent_ answer zero_table = (t0, None) ->
  Entries t0 = [] ->
  forall t, Entries t = [] ->
    exists t',
      Entries t' = []
      /\ Design.first_usable (map (fun _ => answer) pages) t = Exhausted t'
      /\ Design.consulted (map (fun _ => answer) pages) t = List.length pages
      /\ Design.decoding_audits folder pages (map (fun _ => answer) pages) t
         = [].
Proof.
  intros Hc Hd He. induction pages as [|page pages IH]; intros t Ht; cbn.
  - exists t. auto.
  - rewrite (complete_answer_alone answer t Hc), Hd.
    assert (Hu : Design.usable t0 = false)
      by (unfold Design.usable; rewrite He; apply andb_false_r).
    rewrite Hu. destruct (IH t0 He) as (t' & H1 & H2 & H3 & H4).
    exists t'. repeat split; congruence.
Qed.


End NoSummary.


(** ** What an answer leaves of the content index before it *)



(** X20. An answer that is a JSON object without the key [entries]
    (in any letter case) leaves the entries of the content index as
    they were before the answer was decoded. *)
Theorem missing_entries_key_keeps (answer : string)
    (members : list (string * json.value)) (t : TableContent) :
  json.parse answer = Some (json.Obj members) ->
  forallb (fun m => negb (Unmarshal.names (fst m) "entries")) members = true ->
  Entries (fst (Unmarshal.TableContent_ answer t)) = Entries t.
Proof.
  intros Hp Hk. unfold Unmarshal.TableContent_, Unmarshal.Unmarshal.
  rewrite Hp. unfold Unmarshal.into_struct.
  exact (absent_entries_key members t None Hk).
Qed.

Lemma missing_entries_key_keeps_witness :
  Entries
    (fst (Unmarshal.TableContent_ (Scenario.json_text "{'error':''}")
            {| TableError := "x"; Entries := [ {| EntryTitle := "Tests";
                                                  PageNumbers := [3] |} ] |}))
  = [ {| EntryTitle := "Tests"; PageNumbers := [3] |} ].
Proof.
  apply (missing_entries_key_keeps (Scenario.json_text "{'error':''}")
           [("error", json.Str "")]);
    vm_compute; reflexivity.
Defined.

(** ** What the backend receives of an image *)

Lemma blocks_firstn_bounded (n : nat) :
  forall data : list byte, (List.length data <= n)%nat ->
    base64.blocks (firstn (3 * (List.length data / 3)) data)
    = (fst (base64.blocks data), []).
Proof.
  induction n as [|n IH]; intros data Hl.
  - destruct data; [reflexivity | cbn in Hl; lia].
  - destruct (Nat.lt_ge_cases (List.length data) 3) as [Hs|Hs].
    + rewrite (Nat.div_small _ _ Hs), (blocks_short data Hs). reflexivity.
    + destruct data as [|b0 [|b1 [|b2 r]]]; try (cbn in Hs; lia).
      change (List.length (b0 :: b1 :: b2 :: r)) with (1 * 3 + List.length r)%nat.
      rewrite Nat.div_add_l by lia.
      replace (3 * (1 + List.length r / 3))%nat
        with (S (S (S (3 * (List.length r / 3))))) by lia.
      cbn [firstn]. rewrite !blocks_cons3, IH by (cbn in Hl; lia).
      cbn [fst snd]. reflexivity.
Qed.

(** X21. The image of a request is the prefix followed by the standard
    base64 text, padding included, of the image cut down to a whole
    number of 3-byte blocks: the last one or two bytes of an image whose
    length is not a multiple of three never reach the backend. *)
Theorem image_url_truncated (data : list byte) :
  AiProxy.image_url (whole_file data)
  = inl ("data:image/jpeg;base64,"
         +:+ base64.EncodeToString
               (firstn (3 * (List.length data / 3)) data)).
Proof.
  unfold whole_file. rewrite image_url_blocks. cbn [concat].
  rewrite app_nil_r. unfold base64.EncodeToString.
  rewrite (blocks_firstn_bounded (List.length data) data (le_n _)).
  cbn [base64.tail_block]. now rewrite append_nil_r.
Qed.

(** ** Instances of the properties above *)

Lemma renameFiles_frame_witness :
  os.files
    (Copier.fs (snd (Copier.renameFiles "/out" Scenario.tilt Scenario.start)))
    !! "/in/A1/p1.jpg"
  = os.files (Copier.fs Scenario.start) !! "/in/A1/p1.jpg".
Proof.
  apply (proj2 (renameFiles_frame "/out" Scenario.tilt Scenario.start)).
  intros Hin. apply list_elem_of_In in Hin. vm_compute in Hin.
  repeat (destruct Hin as [Hin|Hin]; [discriminate Hin|]). exact Hin.
Defined.

Lemma destination_spelled_witness :
  Design.destination (Design.issue_folder "/out" (Metadata Scenario.tilt))
    Scenario.p1
  = (("/out" +:+ "/" +:+ "test-" +:+ "Tilt")
     +:+ "/" +:+ "Numéro " +:+ GoString.fmt_0d 2 42 +:+ " | "
     +:+ GoString.Join (Copier.toNames [6]) " - " +:+ " "
     +:+ GoString.fmt_d 1991)
    +:+ "/" +:+ GoString.fmt_0d 3 1
    +:+ GoString.ToLower (filepath.Ext "p1.jpg").
Proof.
  apply (destination_spelled "/out" (Metadata Scenario.tilt) Scenario.p1).
  - exists ["out"]. repeat split; [discriminate | repeat constructor].
  - reflexivity.
Defined.
